(** * Product listing page: catalog client, pagination hook, scroll trigger

    A shallow embedding of the TypeScript sources

    - [src/lib/services/product.service.ts]  ([ProductService.fetchProducts])
    - [src/hooks/use-products.ts]            ([useProducts])
    - [components/product-grid.tsx]          ([ProductGrid.handleIntersection])
    - [components/product-list-client.tsx]   ([ProductListClient])
    - [src/app/products/page.tsx]            ([getInitialProducts], [ProductsPage])

    together with a model of the two platform pieces they are glued to: the
    [fetch] API and the infinite-query utility of TanStack Query v5.

    JavaScript numbers that the code only adds, compares and prints
    ([limit], [skip], [total]) are integers of [Z]; an [async] function is
    a computation over the outside world that ends fulfilled or rejected. *)

From Stdlib Require Import ZArith List String Ascii Bool Lia.
From Stdlib Require Import DecimalString DecimalZ DecimalPos.
Import ListNotations.

Open Scope string_scope.
Open Scope Z_scope.

(** ** JavaScript values the code throws and awaits *)

Module Js.

(** A value as [JSON.parse] and [Response.json] produce it. *)
#[warnings="-register-all"] Inductive Json : Type :=
| JNull
| JBool (b : bool)
| JNumber (n : Z)
| JString (s : string)
| JArray (items : list Json)
| JObject (fields : list (string * Json)).

(** What a [catch] clause or a rejected promise can carry.  The three
    first constructors are instances of the built-in [Error] class:
    [fetch] rejects with a [TypeError] when the network fails,
    [Response.json] rejects with a [SyntaxError] when the body is not
    JSON, and [new Error(message)] is what the service throws itself.
    [NonError] stands for any thrown value that is not an [Error]
    instance (a mocked service may reject with one), [None] being
    [undefined]. *)
Inductive Exception : Type :=
| TypeError (message : string)
| SyntaxError (message : string)
| Error (message : string)
| NonError (value : option Json).

(** Truthiness, as [if (x)] tests it. *)
Definition truthy_json (v : Json) : bool :=
  match v with
  | JNull => false
  | JBool b => b
  | JNumber n => negb (n =? 0)
  | JString s => negb (s =? "")%string
  | JArray _ | JObject _ => true
  end.

Definition truthy (e : Exception) : bool :=
  match e with
  | NonError None => false
  | NonError (Some v) => truthy_json v
  | _ => true
  end.

(** Field [key] of a JSON object, when [v] is one and has it. *)
Definition json_field (key : string) (v : Json) : option Json :=
  match v with
  | JObject fields =>
      option_map snd (find (fun kv => (fst kv =? key)%string) fields)
  | _ => None
  end.

Definition is_number (v : option Json) : bool :=
  match v with Some (JNumber _) => true | _ => false end.

Definition is_array (v : option Json) : bool :=
  match v with Some (JArray _) => true | _ => false end.

(** [e instanceof Error] *)
Definition instanceof_Error (e : Exception) : bool :=
  match e with
  | NonError _ => false
  | _ => true
  end.

(** [e.message], for an [Error] instance *)
Definition message (e : Exception) : string :=
  match e with
  | TypeError m | SyntaxError m | Error m => m
  | NonError _ => ""
  end.

(** How a promise settles. *)
Inductive Settled (A : Type) : Type :=
| Fulfilled (a : A)
| Rejected (e : Exception).
Arguments Fulfilled {A} a.
Arguments Rejected {A} e.

(** A value that may be [null] ([T | null]). *)
Inductive OrNull (A : Type) : Type :=
| Null
| NotNull (a : A).
Arguments Null {A}.
Arguments NotNull {A} a.

(** [x ?? undefined], with [undefined] as [None]. *)
Definition coalesce_undefined {A} (x : OrNull A) : option A :=
  match x with
  | Null => None
  | NotNull a => Some a
  end.

(** [x ?? d] for an optional [x]. *)
Definition coalesce {A} (x : option A) (d : A) : A :=
  match x with
  | Some a => a
  | None => d
  end.

(** Template-literal interpolation [${n}] of an integer. *)
Definition number_to_string (n : Z) : string :=
  NilZero.string_of_int (Z.to_int n).

(** [Number(s)] on a decimal literal. *)
Definition string_to_number (s : string) : option Z :=
  option_map Z.of_int (NilZero.int_of_string s).

End Js.
Import Js.

(** ** Data model ([@/types/product]) *)

(** The fields of a product that the listing code reads as text or
    integers; the decimal fields ([price], [rating], ...) are rendered by
    the card only and read by none of the functions below. *)
Record Product : Type := {
  id : Z;
  title : string;
  description : string;
  category : string;
  brand : string;
  stock : Z;
  thumbnail : string
}.

(** [ProductsResponse]: one page of the catalog. *)
Record ProductsResponse : Type := {
  products : list Product;
  total : Z;
  skip : Z;
  limit : Z
}.

(** The shape the client expects of a decoded body:
    [{ products: Product[], total: number, skip: number, limit: number }]. *)
Definition hasPageShape (v : Json) : bool :=
  is_array (json_field "products" v)
  && is_number (json_field "total" v)
  && is_number (json_field "skip" v)
  && is_number (json_field "limit" v).

(** ** The outside world: HTTP and the console *)

Module Web.

Inductive Method : Type := GET | HEAD | POST.

(** A request as it leaves [fetch]: method, URL and the [next.revalidate]
    caching hint. *)
Record Request : Type := {
  method : Method;
  url : string;
  revalidate : option Z
}.

(** The second argument of [fetch]. *)
Record RequestInit : Type := {
  init_method : option Method;
  init_revalidate : option Z
}.

Section Bodies.

(** The type of decoded bodies.  [Response.json] returns whatever the
    body decodes to and nothing below checks it, so the transport, the
    world and the client are generic in it. *)
Variable Body : Type.

(** A response: [ok], [statusText], and what [json()] settles to, either
    the decoded body or the message of the [SyntaxError] it rejects
    with. *)
Record ResponseOf : Type := {
  ok : bool;
  statusText : string;
  json : string + Body
}.

(** What the transport does with a request: no response at all, or one. *)
Inductive TransportOf : Type :=
| Unreachable (reason : string)
| Responds (r : ResponseOf).

(** The world holds the network (its answer may depend on the requests
    seen so far), the requests issued, and the lines of
    [console.error]. *)
Record WorldOf : Type := {
  network : list Request -> Request -> TransportOf;
  requests : list Request;
  console : list (string * Exception)
}.

End Bodies.

Arguments ok {Body} _.
Arguments statusText {Body} _.
Arguments json {Body} _.
Arguments Unreachable {Body} reason.
Arguments Responds {Body} r.
Arguments network {Body} _ _ _.
Arguments requests {Body} _.
Arguments console {Body} _.

(** Where the body has the type the TypeScript declares,
    [ProductsResponse]. *)
Abbreviation Response := (ResponseOf ProductsResponse).
Abbreviation Transport := (TransportOf ProductsResponse).
Abbreviation World := (WorldOf ProductsResponse).

(** Where the body is any JSON value. *)
Abbreviation JsonWorld := (WorldOf Json).

(** An effectful computation over state [S] that settles. *)
Definition Eff (S A : Type) : Type := S -> Settled A * S.

(** An [async] function body. *)
Definition AsyncOf (Body A : Type) : Type := Eff (WorldOf Body) A.

Abbreviation Async := (AsyncOf ProductsResponse).

Definition ret {S A} (a : A) : Eff S A := fun s => (Fulfilled a, s).

Definition throw {S A} (e : Exception) : Eff S A := fun s => (Rejected e, s).

Definition bind {S A B} (m : Eff S A) (k : A -> Eff S B) : Eff S B :=
  fun s =>
    match m s with
    | (Fulfilled a, s') => k a s'
    | (Rejected e, s') => (Rejected e, s')
    end.

(** [try { m } catch (e) { h e }] *)
Definition try_catch {S A} (m : Eff S A) (h : Exception -> Eff S A) : Eff S A :=
  fun s =>
    match m s with
    | (Fulfilled a, s') => (Fulfilled a, s')
    | (Rejected e, s') => h e s'
    end.

(** The world once request [r] has left. *)
Definition sent {Body} (r : Request) (w : WorldOf Body) : WorldOf Body :=
  {| network := network w;
     requests := requests w ++ [r];
     console := console w |}.

(** [fetch(input, init)]: one request leaves, the network answers. *)
Definition fetch {Body} (input : string) (init : RequestInit)
  : AsyncOf Body (ResponseOf Body) :=
  fun w =>
    let r := {| method := coalesce (init_method init) GET;
                url := input;
                revalidate := init_revalidate init |} in
    match network w (requests w) r with
    | Unreachable reason => (Rejected (TypeError reason), sent r w)
    | Responds resp => (Fulfilled resp, sent r w)
    end.

(** [response.json()]: the decoded body as it is, or the [SyntaxError]. *)
Definition response_json {Body} (response : ResponseOf Body) : AsyncOf Body Body :=
  match json response with
  | inl reason => throw (SyntaxError reason)
  | inr body => ret body
  end.

(** [console.error(label, e)] *)
Definition console_error {Body} (label : string) (e : Exception)
  : AsyncOf Body unit :=
  fun w =>
    (Fulfilled tt,
     {| network := network w;
        requests := requests w;
        console := console w ++ [(label, e)] |}).

End Web.
Import Web.

Notation "'await' x <- m ;; k" := (bind m (fun x => k))
  (at level 61, x name, m at next level, right associativity).

(** ** [product.service.ts] *)

Module ProductServiceModule.

Definition API_BASE_URL : string := "https://dummyjson.com".

(** [interface IProductService] *)
Record IProductService : Type := {
  fetchProducts : Z -> Z -> Async ProductsResponse
}.

(** The URL of line 15. *)
Definition products_url (limit skip : Z) : string :=
  API_BASE_URL ++ "/products?limit=" ++ number_to_string limit
               ++ "&skip=" ++ number_to_string skip.

(** [ProductService.fetchProducts].  The declared result type,
    [Promise<ProductsResponse>], is not checked at run time: the function
    returns what [json()] gives, so it is generic in the body.  Under the
    interface it is used at the declared type. *)
Definition ProductService_fetchProducts {Body} (limit skip : Z) : AsyncOf Body Body :=
  let url := products_url limit skip in
  await response <- fetch url {| init_method := None; init_revalidate := Some 60 |} ;;
  if negb (ok response)
  then throw (Error ("Failed to fetch products: " ++ statusText response))
  else response_json response.

(** The request that call puts on the wire. *)
Definition productsRequest (limit skip : Z) : Request :=
  {| method := GET; url := products_url limit skip; revalidate := Some 60 |}.

(** [export const productService = new ProductService()] *)
Definition productService : IProductService :=
  {| fetchProducts := ProductService_fetchProducts |}.

End ProductServiceModule.
Import ProductServiceModule.

(** ** The infinite-query utility ([@tanstack/react-query], version 5)

    The library is an external collaborator; this is a model of the part
    of its documented behaviour that [useProducts] relies on: the cached
    [InfiniteData], how a fetch is assembled from [queryFn] and
    [getNextPageParam], what a settled fetch does to the query state, and
    the flags the observer derives.  One attempt per fetch is modelled
    (the [retry: false] client of the testing guide). *)

Module InfiniteQuery.

Section Model.

Variables TPage TParam : Type.

(** [InfiniteData<TPage, TParam>] *)
Record InfiniteData : Type := {
  pages : list TPage;
  pageParams : list TParam
}.

(** The options [useInfiniteQuery] is called with.  [queryFn] receives
    the context's [pageParam] (possibly [undefined]);
    [getNextPageParam] is given the last page (the callback of the
    hook ignores the other arguments the library passes). *)
Record Options : Type := {
  queryFn : option TParam -> Async TPage;
  getNextPageParam : TPage -> option TParam;
  initialPageParam : TParam;
  initialData : option InfiniteData
}.

(** A fetch in flight: whether it is a [fetchNextPage]
    ([fetchMeta.fetchMore.direction = 'forward']) and what its promise
    settles to. *)
Record Pending : Type := {
  fetchMore : bool;
  promise : Settled InfiniteData
}.

(** The query state: cached data, last error, fetch in flight. *)
Record QueryState : Type := {
  data : option InfiniteData;
  error : option Exception;
  pending : option Pending
}.

Variable o : Options.

Definition no_data : InfiniteData := {| pages := []; pageParams := [] |}.

(** [addToEnd] on pages and params ([maxPages] is not set). *)
Definition addToEnd (d : InfiniteData) (page : TPage) (param : TParam) : InfiniteData :=
  {| pages := pages d ++ [page]; pageParams := pageParams d ++ [param] |}.

(** [getNextPageParam(options, { pages, pageParams })]: the callback on
    the last page, [undefined] when there is no page. *)
Definition nextPageParam (d : InfiniteData) : option TParam :=
  match last (map Some (pages d)) None with
  | Some lastPage => getNextPageParam o lastPage
  | None => None
  end.

(** [hasNextPage(options, data)] *)
Definition hasNextPage (d : option InfiniteData) : bool :=
  match d with
  | None => false
  | Some d =>
      match nextPageParam d with
      | Some _ => true
      | None => false
      end
  end.

(** [fetchPage(data, param)] for a defined [param]: one call of
    [queryFn], the page and its param added at the end. *)
Definition fetchPage (d : InfiniteData) (param : TParam) : Async InfiniteData :=
  await page <- queryFn o (Some param) ;;
  ret (addToEnd d page param).

(** The fetch of a [fetchNextPage] when pages exist: with no next
    param the old data is the result and [queryFn] is not called. *)
Definition fetchNext (old : InfiniteData) : Async InfiniteData :=
  match nextPageParam old with
  | None => ret old
  | Some param => fetchPage old param
  end.

(** The rest of the [do ... while] of a full fetch: up to [remaining]
    more pages, stopping when there is no next param. *)
Fixpoint fetchRest (remaining : nat) (result : InfiniteData) : Async InfiniteData :=
  match remaining with
  | O => ret result
  | S n =>
      match nextPageParam result with
      | None => ret result
      | Some param =>
          await r <- fetchPage result param ;;
          fetchRest n r
      end
  end.

(** A first fetch or a refetch: the first page with
    [oldPageParams[0] ?? initialPageParam], then as many pages as were
    cached. *)
Definition fetchAll (old : InfiniteData) : Async InfiniteData :=
  let first := hd (initialPageParam o) (pageParams old) in
  await r <- fetchPage no_data first ;;
  fetchRest (Nat.pred (List.length (pages old))) r.

(** [query.fetch]: the fetch function runs, its promise is kept as the
    fetch in flight (replacing one already there); starting a fetch
    without data clears the error. *)
Definition fetch_query (more : bool) (q : QueryState) (w : World) : QueryState * World :=
  let old := coalesce (data q) no_data in
  let job :=
    match more, pages old with
    | true, _ :: _ => fetchNext old
    | _, _ => fetchAll old
    end in
  let (settled, w') := job w in
  ({| data := data q;
      error := match data q with None => None | Some _ => error q end;
      pending := Some {| fetchMore := more; promise := settled |} |},
   w').

(** [fetchNextPage()] *)
Definition fetchNextPage (q : QueryState) (w : World) : QueryState * World :=
  fetch_query true q w.

(** The fetch in flight settles: success stores the data and clears
    the error, failure stores the error and keeps the data. *)
Definition settle (q : QueryState) : QueryState :=
  match pending q with
  | None => q
  | Some p =>
      match promise p with
      | Fulfilled d => {| data := Some d; error := None; pending := None |}
      | Rejected e => {| data := data q; error := Some e; pending := None |}
      end
  end.

(** The cursor: what the next [fetchNextPage] will ask [queryFn] for, as
    the data it extends and the page param; nothing when the last page
    has no successor. *)
Definition cursor (d : option InfiniteData) : option (InfiniteData * TParam) :=
  let old := coalesce d no_data in
  match pages old with
  | [] => Some (no_data, hd (initialPageParam o) (pageParams old))
  | _ :: _ =>
      match nextPageParam old with
      | Some param => Some (old, param)
      | None => None
      end
  end.

(** [await fetchNextPage()]: the call and the settling of its fetch. *)
Definition loadNext (s : QueryState * World) : QueryState * World :=
  (settle (fst (fetchNextPage (fst s) (snd s))),
   snd (fetchNextPage (fst s) (snd s))).

(** The state a new query starts in. *)
Definition initialState : QueryState :=
  {| data := initialData o; error := None; pending := None |}.

(** Cached data is stale once [staleTime] has elapsed since it was
    written. *)
Definition isStale (staleTime elapsed : Z) : bool := staleTime <=? elapsed.

(** Mounting the observer: fetch when there is no data, refetch when
    the data is stale, otherwise nothing. *)
Definition onMount (staleTime elapsed : Z) (q : QueryState) (w : World)
  : QueryState * World :=
  match data q with
  | None => fetch_query false q w
  | Some _ => if isStale staleTime elapsed then fetch_query false q w else (q, w)
  end.

(** Flags of the observer result. *)
Definition isFetching (q : QueryState) : bool :=
  match pending q with Some _ => true | None => false end.

Definition isFetchingNextPage (q : QueryState) : bool :=
  match pending q with Some p => fetchMore p | None => false end.

(** [status === 'pending']: no data and no error. *)
Definition isPending (q : QueryState) : bool :=
  match data q, error q with
  | None, None => true
  | _, _ => false
  end.

Definition isLoading (q : QueryState) : bool := isFetching q && isPending q.

End Model.

Arguments pages {TPage TParam} _.
Arguments pageParams {TPage TParam} _.
Arguments queryFn {TPage TParam} _ _ _.
Arguments getNextPageParam {TPage TParam} _ _.
Arguments initialPageParam {TPage TParam} _.
Arguments initialData {TPage TParam} _.
Arguments fetchMore {TPage TParam} _.
Arguments promise {TPage TParam} _.
Arguments data {TPage TParam} _.
Arguments error {TPage TParam} _.
Arguments pending {TPage TParam} _.
Arguments no_data {TPage TParam}.
Arguments addToEnd {TPage TParam} _ _ _.
Arguments loadNext {TPage TParam} _ _.
Arguments cursor {TPage TParam} _ _.
Arguments nextPageParam {TPage TParam} _ _.
Arguments hasNextPage {TPage TParam} _ _.
Arguments fetchPage {TPage TParam} _ _ _ _.
Arguments fetchNext {TPage TParam} _ _ _.
Arguments fetchRest {TPage TParam} _ _ _ _.
Arguments fetchAll {TPage TParam} _ _ _.
Arguments fetch_query {TPage TParam} _ _ _ _.
Arguments fetchNextPage {TPage TParam} _ _ _.
Arguments settle {TPage TParam} _.
Arguments initialState {TPage TParam} _.
Arguments onMount {TPage TParam} _ _ _ _ _.
Arguments isFetching {TPage TParam} _.
Arguments isFetchingNextPage {TPage TParam} _.
Arguments isPending {TPage TParam} _.
Arguments isLoading {TPage TParam} _.

End InfiniteQuery.

(** ** [use-products.ts] *)

Module UseProducts.

(** [interface UseProductsOptions] *)
Record UseProductsOptions : Type := {
  pageSize : option Z;
  initialData : option ProductsResponse
}.

(** The [getNextPageParam] callback (lines 27-31). *)
Definition getNextPageParam (lastPage : ProductsResponse) : option Z :=
  let nextSkip := skip lastPage + limit lastPage in
  if nextSkip <? total lastPage then Some nextSkip else None.

(** [useProducts]: the options handed to [useInfiniteQuery]; the query
    they configure is the pagination controller. *)
Definition useProducts (productService : IProductService)
    (options : UseProductsOptions) : InfiniteQuery.Options ProductsResponse Z :=
  let pageSize := coalesce (pageSize options) 20 in
  {| InfiniteQuery.queryFn := fun pageParam =>
       fetchProducts productService pageSize (coalesce pageParam 0);
     InfiniteQuery.getNextPageParam := getNextPageParam;
     InfiniteQuery.initialPageParam := 0;
     InfiniteQuery.initialData :=
       match initialData options with
       | Some page =>
           Some {| InfiniteQuery.pages := [page];
                   InfiniteQuery.pageParams := [0] |}
       | None => None
       end |}.

End UseProducts.
Import UseProducts.

(** ** [product-grid.tsx] and [product-list-client.tsx] *)

Module Components.

Abbreviation Query := (InfiniteQuery.QueryState ProductsResponse Z).

(** What an event handler of the mounted view acts on: the query and
    the world. *)
Abbreviation Sys := (InfiniteQuery.QueryState ProductsResponse Z * World)%type.

Record IntersectionObserverEntry : Type := {
  isIntersecting : bool
}.

(** [interface ProductGridProps] *)
Record ProductGridProps : Type := {
  initialProducts : list Product;
  onLoadMore : Sys -> Sys;
  isLoading : bool;
  hasMore : bool
}.

(** [handleIntersection] (lines 26-34).  [const [entry] = entries]
    takes the first entry; on an empty array [entry] is [undefined] and
    reading its property throws. *)
Definition handleIntersection (props : ProductGridProps)
    (entries : list IntersectionObserverEntry) : Eff Sys unit :=
  match entries with
  | [] => throw (TypeError "Cannot read properties of undefined")
  | entry :: _ =>
      if isIntersecting entry && negb (isLoading props) && hasMore props
      then fun s => (Fulfilled tt, onLoadMore props s)
      else ret tt
  end.

(** What [ProductGrid] puts on screen: the cards, the spinner, the
    end-of-list line, and the sentinel with its observer callback. *)
Record GridView : Type := {
  cards : list Product;
  spinner : bool;
  noMoreLine : bool;
  sentinel : list IntersectionObserverEntry -> Eff Sys unit
}.

Definition ProductGrid (props : ProductGridProps) : GridView :=
  {| cards := initialProducts props;
     spinner := isLoading props;
     noMoreLine := negb (hasMore props)
                   && (0 <? Z.of_nat (List.length (initialProducts props)));
     sentinel := handleIntersection props |}.

Inductive View : Type :=
| ErrorView (heading reason : string)
| LoadingView (caption : string)
| Grid (g : GridView).

(** [interface ProductListClientProps] *)
Record ProductListClientProps : Type := {
  initialData : option ProductsResponse
}.

(** The query options of [ProductListClient]:
    [useProducts(productService, { initialData })]. *)
Definition clientOptions (props : ProductListClientProps)
  : InfiniteQuery.Options ProductsResponse Z :=
  useProducts productService
    {| pageSize := None; UseProducts.initialData := initialData props |}.

(** [data?.pages.flatMap((page) => page.products) ?? []] (line 114) *)
Definition allProducts (q : Query) : list Product :=
  match InfiniteQuery.data q with
  | Some d => flat_map products (InfiniteQuery.pages d)
  | None => []
  end.

(** The recorded error when [if (error)] takes it: a truthy one. *)
Definition shownError (q : Query) : option Exception :=
  match InfiniteQuery.error q with
  | Some error => if truthy error then Some error else None
  | None => None
  end.

(** One render of [ProductListClient] on the current query state. *)
Definition ProductListClient (props : ProductListClientProps) (q : Query) : View :=
  let o := clientOptions props in
  match shownError q with
  | Some error =>
      ErrorView "Failed to load products"
                (if instanceof_Error error then message error
                 else "An error occurred")
  | None =>
      if InfiniteQuery.isLoading q
         && (Z.of_nat (List.length (allProducts q)) =? 0)
      then LoadingView "Loading products..."
      else Grid (ProductGrid
             {| initialProducts := allProducts q;
                onLoadMore := fun s =>
                  InfiniteQuery.fetchNextPage o (fst s) (snd s);
                isLoading := InfiniteQuery.isFetchingNextPage q;
                hasMore := InfiniteQuery.hasNextPage o (InfiniteQuery.data q) |})
  end.

(** The products a view shows. *)
Definition renderedProducts (v : View) : list Product :=
  match v with
  | Grid g => cards g
  | _ => []
  end.

(** The state the mounted component is in after its mount effect ran.
    [staleTime] is the default of the query client, which is set up in
    [providers/query-provider.tsx], a file that is not among the sources
    (the README gives 5 minutes); [elapsed] is the time since the seed
    was written.  Both are parameters. *)
Definition mount (props : ProductListClientProps) (staleTime elapsed : Z)
    (w : World) : Sys :=
  let o := clientOptions props in
  InfiniteQuery.onMount o staleTime elapsed (InfiniteQuery.initialState o) w.

(** What can happen to a mounted view: the observer reports the
    sentinel, or the fetch in flight settles. *)
Inductive Event : Type :=
| Intersect (entries : list IntersectionObserverEntry)
| Settle.

(** The observer exists only while the grid is rendered. *)
Definition step (props : ProductListClientProps) (s : Sys) (ev : Event) : Sys :=
  match ev with
  | Settle => (InfiniteQuery.settle (fst s), snd s)
  | Intersect entries =>
      match ProductListClient props (fst s) with
      | Grid g => snd (sentinel g entries s)
      | _ => s
      end
  end.

Definition run (props : ProductListClientProps) (evs : list Event) (s : Sys) : Sys :=
  fold_left (step props) evs s.

(** The mounted view between renders.  [current] is the query and the
    world as they are; [rendered] is the query as the last render saw
    it.  The observer callback in force is the one that render created
    ([useCallback] with [isLoading], [hasMore], [onLoadMore] as
    dependencies, re-subscribed by the effect): it closes over that
    render's props. *)
Record Mounted : Type := {
  current : Sys;
  rendered : Query
}.

(** What can happen to it: the component renders again, the observer
    reports the sentinel, the fetch in flight settles. *)
Inductive Happening : Type :=
| Rerender
| Report (entries : list IntersectionObserverEntry)
| Settled.

Definition happen (props : ProductListClientProps) (m : Mounted) (h : Happening)
  : Mounted :=
  match h with
  | Rerender => {| current := current m; rendered := fst (current m) |}
  | Report entries =>
      match ProductListClient props (rendered m) with
      | Grid g =>
          {| current := snd (sentinel g entries (current m));
             rendered := rendered m |}
      | _ => m
      end
  | Settled =>
      {| current := (InfiniteQuery.settle (fst (current m)), snd (current m));
         rendered := rendered m |}
  end.

Definition happenings (props : ProductListClientProps) (hs : list Happening)
    (m : Mounted) : Mounted :=
  fold_left (happen props) hs m.

(** The mounted view once the mount effect ran and the list rendered. *)
Definition mounted (props : ProductListClientProps) (staleTime elapsed : Z)
    (w : World) : Mounted :=
  {| current := mount props staleTime elapsed w;
     rendered := fst (mount props staleTime elapsed w) |}.

End Components.
Import Components.

(** ** [app/products/page.tsx] *)

Module ProductsPageModule.

(** [getInitialProducts] (lines 14-21) *)
Definition getInitialProducts : Async (OrNull ProductsResponse) :=
  try_catch
    (await page <- fetchProducts productService 20 0 ;;
     ret (NotNull page))
    (fun error =>
       await logged <- console_error "Failed to fetch initial products:" error ;;
       ret Null).

(** What the server component returns: the header and the props of the
    client component. *)
Record PageTree : Type := {
  heading : string;
  tagline : string;
  productList : ProductListClientProps
}.

(** [ProductsPage] (lines 23-42) *)
Definition ProductsPage : Async PageTree :=
  await initialData <- getInitialProducts ;;
  ret {| heading := "Products";
         tagline := "Explore our collection of products~";
         productList :=
           {| Components.initialData := coalesce_undefined initialData |} |}.

End ProductsPageModule.
Import ProductsPageModule.

(** ** Sample worlds and pages *)

Module Samples.

Definition item (n : Z) (name : string) : Product :=
  {| id := n; title := name; description := ""; category := "";
     brand := ""; stock := 1; thumbnail := "" |}.

(** Products numbered [from+1 .. from+count]. *)
Fixpoint items (count : nat) (from : Z) : list Product :=
  match count with
  | O => []
  | S n => item (from + 1) "item" :: items n (from + 1)
  end.

Definition page (count : nat) (total skip limit : Z) : ProductsResponse :=
  {| products := items count skip; total := total; skip := skip; limit := limit |}.

Definition okJson (body : ProductsResponse) : Transport :=
  Responds {| ok := true; statusText := "OK"; json := inr body |}.

Definition world (net : list Request -> Request -> Transport) : World :=
  {| network := net; requests := []; console := [] |}.

(** No network at all. *)
Definition offline : World :=
  world (fun _ _ => Unreachable "Failed to fetch").

(** Every request is answered 404. *)
Definition notFound : World :=
  world (fun _ _ =>
    Responds {| ok := false; statusText := "Not Found";
                json := inl "Unexpected token" |}).

(** A 200 whose body is JSON, but an error envelope and not a page. *)
Definition envelope : Json :=
  JObject [("message", JString "Too many requests")].

Definition otherShape : JsonWorld :=
  {| network := fun _ _ =>
       Responds {| ok := true; statusText := "OK"; json := inr envelope |};
     requests := [];
     console := [] |}.

(** JSON-bodied worlds with no network, with a 404, with a body that is
    not JSON. *)
Definition offlineJson : JsonWorld :=
  {| network := fun _ _ => Unreachable "Failed to fetch";
     requests := []; console := [] |}.

Definition notFoundJson : JsonWorld :=
  {| network := fun _ _ =>
       Responds {| ok := false; statusText := "Not Found"; json := inr envelope |};
     requests := []; console := [] |}.

Definition garbledJson : JsonWorld :=
  {| network := fun _ _ =>
       Responds {| ok := true; statusText := "OK";
                   json := inl "Unexpected token < in JSON" |};
     requests := []; console := [] |}.

(** The mocked service of the testing guide: the same page, whatever
    is asked. *)
Definition mockPage : ProductsResponse :=
  {| products := [item 1 "Product 1"]; total := 100; skip := 0; limit := 20 |}.

Definition mocked : World := world (fun _ _ => okJson mockPage).

(** A catalog of 100 products served in pages of at most [limit]. *)
Definition catalog100 : World :=
  world (fun _ r =>
    if (url r =? products_url 20 0)%string then okJson (page 20 100 0 20)
    else if (url r =? products_url 20 20)%string then okJson (page 20 100 20 20)
    else if (url r =? products_url 20 40)%string then okJson (page 20 100 40 20)
    else Unreachable "Failed to fetch").

(** A catalog of 194 products whose last page is short: asked for 20
    from offset 190 it returns the 4 that remain and says so. *)
Definition catalog194 : World :=
  world (fun _ r =>
    if (url r =? products_url 20 190)%string then okJson (page 4 194 190 4)
    else Unreachable "Failed to fetch").

(** A network that fails the first request and answers the later ones. *)
Definition flaky : World :=
  world (fun seen _ =>
    match seen with
    | [] => Unreachable "Failed to fetch"
    | _ => okJson (page 20 100 0 20)
    end).

(** A network that answers the first request and fails the later ones. *)
Definition dropsAfterFirst : World :=
  world (fun seen _ =>
    match seen with
    | [] => okJson (page 20 100 0 20)
    | _ => Unreachable "Failed to fetch"
    end).

(** A catalog of 50 products whose last page is short and says so. *)
Definition catalog50 : World :=
  world (fun _ r =>
    if (url r =? products_url 20 0)%string then okJson (page 20 50 0 20)
    else if (url r =? products_url 20 20)%string then okJson (page 20 50 20 20)
    else if (url r =? products_url 20 40)%string then okJson (page 10 50 40 10)
    else Unreachable "Failed to fetch").

Definition noSeed : ProductListClientProps := {| Components.initialData := None |}.

Definition seeded (p : ProductsResponse) : ProductListClientProps :=
  {| Components.initialData := Some p |}.

End Samples.

Import Samples.

(** ** Vocabulary of the statements *)

(** The three ways a call of the catalog client fails: the transport
    ([TypeError] of [fetch]), a non-success status (the [Error] the
    service throws), an undecodable body ([SyntaxError] of [json()]). *)
Definition threeKinds (e : Exception) : Prop :=
  (exists m, e = TypeError m) \/ (exists m, e = Error m) \/ (exists m, e = SyntaxError m).

(** A run of [loadNext] calls each of which put one request on the wire
    and was answered with a page: [Loads o s ps s'] leads from [s] to [s']
    and [ps] are the pages the server sent, in fetch order. *)
Inductive Loads (o : InfiniteQuery.Options ProductsResponse Z)
  : Sys -> list ProductsResponse -> Sys -> Prop :=
| Loads_none (s : Sys) : Loads o s [] s
| Loads_more (s : Sys) (r : Request) (resp : Response)
    (p : ProductsResponse) (ps : list ProductsResponse) (s' : Sys) :
    requests (snd (InfiniteQuery.loadNext o s)) = (requests (snd s) ++ [r])%list ->
    network (snd s) (requests (snd s)) r = Responds resp ->
    ok resp = true ->
    json resp = inr p ->
    Loads o (InfiniteQuery.loadNext o s) ps s' ->
    Loads o s (p :: ps) s'.

(** The items of a catalog at positions [from, from + count). *)
Definition slice {A} (from count : Z) (l : list A) : list A :=
  firstn (Z.to_nat count) (skipn (Z.to_nat from) l).

(** A page taken from a catalog: the items from its offset on, as many
    as its limit says (fewer at the end of the catalog). *)
Definition pageOf (catalog : list Product) (p : ProductsResponse) : Prop :=
  0 <= skip p /\ 0 <= limit p
  /\ products p = slice (skip p) (limit p) catalog.

(** A network that serves a catalog: whatever page it sends in answer
    to a request for offset [c] is a page of the catalog at offset [c]. *)
Definition servesCatalog (size : Z) (catalog : list Product)
    (net : list Request -> Request -> Transport) : Prop :=
  forall seen c resp p,
    0 <= c ->
    net seen (productsRequest size c) = Responds resp ->
    json resp = inr p ->
    skip p = c /\ pageOf catalog p.

(** The controller holds the items [first, next) of a catalog, and
    [next] is the offset it would ask for. *)
Definition window (o : InfiniteQuery.Options ProductsResponse Z)
    (catalog : list Product) (q : Query) (first next : Z) : Prop :=
  0 <= first <= next
  /\ allProducts q = slice first (next - first) catalog
  /\ forall base c,
       InfiniteQuery.cursor o (InfiniteQuery.data q) = Some (base, c) -> c = next.

(** The fetch in flight, if it succeeds, keeps the pages cached and adds
    after them. *)
Definition promiseExtends (q : Query) : Prop :=
  match InfiniteQuery.pending q with
  | Some p =>
      match InfiniteQuery.promise p with
      | Fulfilled d =>
          exists more,
            InfiniteQuery.pages d
            = (InfiniteQuery.pages (coalesce (InfiniteQuery.data q) InfiniteQuery.no_data)
                 ++ more)%list
      | Rejected _ => True
      end
  | None => True
  end.

(** The offsets [0, size, 2 size, ...] of [n] consecutive pages. *)
Definition offsets (size : Z) (n : nat) : list Z :=
  map (fun i => size * Z.of_nat i) (seq 0 n).

(** A string without the separator of query parameters. *)
Fixpoint noAmp (s : string) : Prop :=
  match s with
  | EmptyString => True
  | String c rest => c <> "&"%char /\ noAmp rest
  end.

(** * Properties *)

(** ** The catalog client *)

(** What one call of [fetchProducts] does, by the network's answer. *)
Lemma fetchProducts_run {Body} (limit skip : Z) (w : WorldOf Body) :
  ProductService_fetchProducts limit skip w =
  (match network w (requests w) (productsRequest limit skip) with
   | Unreachable reason => Rejected (TypeError reason)
   | Responds resp =>
       if ok resp
       then match json resp with
            | inl reason => Rejected (SyntaxError reason)
            | inr body => Fulfilled body
            end
       else Rejected (Error ("Failed to fetch products: " ++ statusText resp))
   end,
   sent (productsRequest limit skip) w).
Proof.
  unfold ProductService_fetchProducts, bind, fetch, productsRequest; simpl.
  destruct (network w (requests w) _) as [reason | resp]; [reflexivity |].
  destruct (ok resp); simpl; [| reflexivity].
  unfold response_json.
  destruct (json resp); reflexivity.
Qed.

(** Exactly one request leaves, whatever the outcome. *)
Lemma fetchProducts_world (limit skip : Z) (w : World) :
  snd (ProductService_fetchProducts limit skip w) = sent (productsRequest limit skip) w.
Proof. rewrite fetchProducts_run; reflexivity. Qed.

(** A rejection of [fetchProducts] is an [Error] instance of one of three
    classes. *)
Lemma fetchProducts_rejects (limit skip : Z) (w : World) (e : Exception) :
  fst (ProductService_fetchProducts limit skip w) = Rejected e -> threeKinds e.
Proof.
  rewrite fetchProducts_run; simpl; unfold threeKinds.
  destruct (network w (requests w) _) as [reason | resp].
  - intros [= <-]; eauto.
  - destruct (ok resp).
    + destruct (json resp); intros [= <-]; eauto.
    + intros [= <-]; eauto.
Qed.

Lemma threeKinds_instanceof (e : Exception) :
  threeKinds e -> instanceof_Error e = true.
Proof. intros [[m ->] | [[m ->] | [m ->]]]; reflexivity. Qed.

Lemma threeKinds_truthy (e : Exception) :
  threeKinds e -> truthy e = true.
Proof. intros [[m ->] | [[m ->] | [m ->]]]; reflexivity. Qed.

(** The printed parameter reads back as the number. *)
Lemma number_roundtrip (n : Z) :
  string_to_number (number_to_string n) = Some n.
Proof.
  unfold string_to_number, number_to_string.
  rewrite NilZero.isi.
  - simpl; now rewrite DecimalZ.of_to.
  - destruct n; simpl; try discriminate.
    intros [= H]; now apply DecimalPos.Unsigned.to_uint_nonnil in H.
  - destruct n; simpl; try discriminate.
    intros [= H]; now apply DecimalPos.Unsigned.to_uint_nonnil in H.
Qed.

Lemma append_inv_head (p s t : string) : p ++ s = p ++ t -> s = t.
Proof. induction p as [| c p IH]; simpl; [auto | intros [= H]; auto]. Qed.

Lemma noAmp_digits (u : Decimal.uint) : noAmp (NilEmpty.string_of_uint u).
Proof. induction u; simpl; auto; split; auto; discriminate. Qed.

Lemma noAmp_number (n : Z) : noAmp (number_to_string n).
Proof.
  unfold number_to_string.
  assert (H : forall u, noAmp (NilZero.string_of_uint u)).
  { intros u; destruct u; try apply noAmp_digits.
    simpl; split; [discriminate | exact I]. }
  destruct (Z.to_int n); simpl; [apply H |].
  split; [discriminate | apply H].
Qed.

(** A string is cut at its first separator in one way only. *)
Lemma split_at_amp (a1 a2 b1 b2 : string) :
  noAmp a1 -> noAmp a2 ->
  a1 ++ String "&" b1 = a2 ++ String "&" b2 ->
  a1 = a2 /\ b1 = b2.
Proof.
  revert a2; induction a1 as [| c a1 IH]; intros [| c' a2]; simpl.
  - intros _ _ [= ->]; auto.
  - intros _ [Hc _] [= E _]; now symmetry in E.
  - intros [Hc _] _ [= E _]; contradiction.
  - intros [_ H1] [_ H2] [= -> E].
    destruct (IH a2 H1 H2 E) as [-> ->]; auto.
Qed.

Lemma number_to_string_inj (n m : Z) :
  number_to_string n = number_to_string m -> n = m.
Proof.
  intros E; apply (f_equal string_to_number) in E.
  rewrite !number_roundtrip in E; now injection E.
Qed.

(** The URL determines the offset it asks for. *)
Lemma products_url_skip_inj (limit skip1 skip2 : Z) :
  products_url limit skip1 = products_url limit skip2 -> skip1 = skip2.
Proof.
  unfold products_url; intros E.
  apply append_inv_head in E.
  apply (append_inv_head "/products?limit=") in E.
  apply append_inv_head in E.
  apply (append_inv_head "&skip=") in E.
  now apply number_to_string_inj.
Qed.

(** C1 (as amended).  For every valid pair ([limit > 0], [skip >= 0]),
    [fetchProducts] issues exactly one GET request to
    [{baseUrl}/products] whose [limit] and [skip] query parameters are
    exactly those two values, and either resolves to the page decoded from
    the response body, unchanged, or fails in one of the three ways. *)
Theorem fetchProducts_single_request (limit skip : Z) (w : World) :
  0 < limit -> 0 <= skip ->
  let result := fst (ProductService_fetchProducts limit skip w) in
  let w' := snd (ProductService_fetchProducts limit skip w) in
  let r := {| method := GET;
              url := "https://dummyjson.com/products?limit="
                       ++ number_to_string limit
                       ++ "&skip=" ++ number_to_string skip;
              revalidate := Some 60 |} in
  requests w' = (requests w ++ [r])%list
  /\ string_to_number (number_to_string limit) = Some limit
  /\ string_to_number (number_to_string skip) = Some skip
  /\ ((exists resp body,
         network w (requests w) r = Responds resp
         /\ ok resp = true /\ json resp = inr body
         /\ result = Fulfilled body)
      \/ (exists e, result = Rejected e /\ threeKinds e)).
Proof.
  intros _ _ result w' r.
  assert (Hr : r = productsRequest limit skip) by reflexivity.
  subst result w'; rewrite fetchProducts_run, Hr; simpl.
  repeat split; try apply number_roundtrip.
  unfold threeKinds.
  destruct (network w (requests w) (productsRequest limit skip)) as [reason | resp] eqn:Hnet.
  - right; eauto 6.
  - destruct (ok resp) eqn:Hok.
    + destruct (json resp) as [reason | body] eqn:Hjson.
      * right; eauto 6.
      * left; exists resp, body; auto.
    + right; eauto 6.
Qed.

Lemma fetchProducts_single_request_witness :
  requests (snd (ProductService_fetchProducts 20 0 catalog100))
  = [productsRequest 20 0].
Proof.
  destruct (fetchProducts_single_request 20 0 catalog100) as [H _];
    [lia | lia | exact H].
Defined.

(** C1, as stated, fails: asked for 20 products from offset 190 of a
    catalog of 194, the call resolves to the page the server sent, whose
    [limit] is 4. *)
Lemma fetchProducts_limit_not_echoed :
  0 < 20 /\ 0 <= 190 /\
  ~ ((exists p, fst (ProductService_fetchProducts 20 190 catalog194) = Fulfilled p
                /\ limit p = 20 /\ skip p = 190)
     \/ (exists e, fst (ProductService_fetchProducts 20 190 catalog194) = Rejected e
                   /\ threeKinds e)).
Proof.
  split; [lia | split; [lia |]].
  intros [[p [Hp [Hl _]]] | [e [He _]]].
  - vm_compute in Hp. injection Hp as <-. discriminate Hl.
  - vm_compute in He. discriminate He.
Qed.

(** C3 (as amended).  A response with a non-success status makes
    [fetchProducts] fail with the [Error] whose message carries the
    status text; a network failure makes it fail with the transport's
    [TypeError]; a body that is not valid JSON makes it fail with the
    [SyntaxError] of [json()]; the three are distinct kinds of error.  A
    body that is valid JSON is returned as decoded, whatever its shape:
    the shape is not checked. *)
Theorem fetchProducts_failures (limit skip : Z) (w : JsonWorld) :
  let answer := network w (requests w) (productsRequest limit skip) in
  let result := fst (ProductService_fetchProducts limit skip w) in
  (forall resp, answer = Responds resp -> ok resp = false ->
     result = Rejected (Error ("Failed to fetch products: " ++ statusText resp)))
  /\ (forall reason, answer = Unreachable reason ->
       result = Rejected (TypeError reason))
  /\ (forall resp reason, answer = Responds resp -> ok resp = true ->
       json resp = inl reason ->
       result = Rejected (SyntaxError reason))
  /\ (forall resp (body : Json), answer = Responds resp -> ok resp = true ->
       json resp = inr body ->
       result = Fulfilled body)
  /\ (forall a b c, TypeError a <> Error b
                    /\ TypeError a <> SyntaxError c
                    /\ Error b <> SyntaxError c).
Proof.
  intros answer result; subst answer result.
  rewrite fetchProducts_run; simpl.
  repeat split; try discriminate.
  - intros resp -> Hok; now rewrite Hok.
  - now intros reason ->.
  - intros resp reason -> Hok Hjson; now rewrite Hok, Hjson.
  - intros resp body -> Hok Hjson; now rewrite Hok, Hjson.
Qed.

Lemma fetchProducts_failures_witness :
  fst (ProductService_fetchProducts 20 0 notFoundJson)
    = Rejected (Error "Failed to fetch products: Not Found")
  /\ fst (ProductService_fetchProducts 20 0 offlineJson)
    = Rejected (TypeError "Failed to fetch")
  /\ fst (ProductService_fetchProducts 20 0 garbledJson)
    = Rejected (SyntaxError "Unexpected token < in JSON")
  /\ fst (ProductService_fetchProducts 20 0 otherShape) = Fulfilled envelope.
Proof.
  split; [| split; [| split]].
  - destruct (fetchProducts_failures 20 0 notFoundJson) as [H _].
    exact (H _ eq_refl eq_refl).
  - destruct (fetchProducts_failures 20 0 offlineJson) as [_ [H _]].
    exact (H _ eq_refl).
  - destruct (fetchProducts_failures 20 0 garbledJson) as [_ [_ [H _]]].
    exact (H _ _ eq_refl eq_refl eq_refl).
  - destruct (fetchProducts_failures 20 0 otherShape) as [_ [_ [_ [H _]]]].
    exact (H _ _ eq_refl eq_refl eq_refl).
Defined.

(** C3, as stated, fails: a success response whose body is valid JSON
    but does not have the shape of a page does not make the call fail;
    the call resolves with that body. *)
Lemma fetchProducts_accepts_any_shape :
  hasPageShape envelope = false
  /\ network otherShape (requests otherShape) (productsRequest 20 0)
     = Responds {| ok := true; statusText := "OK"; json := inr envelope |}
  /\ fst (ProductService_fetchProducts 20 0 otherShape) = Fulfilled envelope
  /\ ~ (exists e, fst (ProductService_fetchProducts 20 0 otherShape) = Rejected e).
Proof.
  repeat split.
  intros [e He]; vm_compute in He; discriminate He.
Qed.

(** ** The pagination controller *)

Section Controller.

Context {TPage TParam : Type}.
Variable o : InfiniteQuery.Options TPage TParam.

Local Abbreviation State := (InfiniteQuery.QueryState TPage TParam).
Local Abbreviation Data := (InfiniteQuery.InfiniteData TPage TParam).

(** The next param is computed from the last page. *)
Lemma nextPageParam_last (d : Data) ps p :
  InfiniteQuery.pages d = (ps ++ [p])%list ->
  InfiniteQuery.nextPageParam o d = InfiniteQuery.getNextPageParam o p.
Proof.
  intros E; unfold InfiniteQuery.nextPageParam.
  rewrite E, map_app; simpl; now rewrite last_last.
Qed.

Lemma nextPageParam_no_page (d : Data) :
  InfiniteQuery.pages d = [] -> InfiniteQuery.nextPageParam o d = None.
Proof. intros E; unfold InfiniteQuery.nextPageParam; now rewrite E. Qed.

(** [fetchNextPage] when the last page has no successor: the promise
    is the cached data and the world is left alone. *)
Lemma fetchNextPage_exhausted (q : State) (d : Data) (w : World) :
  InfiniteQuery.data q = Some d ->
  InfiniteQuery.pages d <> [] ->
  InfiniteQuery.nextPageParam o d = None ->
  InfiniteQuery.fetchNextPage o q w =
  ({| InfiniteQuery.data := Some d;
      InfiniteQuery.error := InfiniteQuery.error q;
      InfiniteQuery.pending :=
        Some {| InfiniteQuery.fetchMore := true;
                InfiniteQuery.promise := Fulfilled d |} |}, w).
Proof.
  intros Hd Hp Hn.
  unfold InfiniteQuery.fetchNextPage, InfiniteQuery.fetch_query.
  rewrite Hd; simpl.
  destruct (InfiniteQuery.pages d) as [| p ps] eqn:E; [contradiction |].
  unfold InfiniteQuery.fetchNext; rewrite Hn; reflexivity.
Qed.

(** [fetchNextPage] when the last page has a successor: one call of
    [queryFn] with that param; the page is added at the end. *)
Lemma fetchNextPage_next (q : State) (d : Data) (c : TParam) (w : World) :
  InfiniteQuery.data q = Some d ->
  InfiniteQuery.nextPageParam o d = Some c ->
  InfiniteQuery.fetchNextPage o q w =
  ({| InfiniteQuery.data := Some d;
      InfiniteQuery.error := InfiniteQuery.error q;
      InfiniteQuery.pending :=
        Some {| InfiniteQuery.fetchMore := true;
                InfiniteQuery.promise :=
                  match fst (InfiniteQuery.queryFn o (Some c) w) with
                  | Fulfilled page => Fulfilled (InfiniteQuery.addToEnd d page c)
                  | Rejected e => Rejected e
                  end |} |},
   snd (InfiniteQuery.queryFn o (Some c) w)).
Proof.
  intros Hd Hn.
  unfold InfiniteQuery.fetchNextPage, InfiniteQuery.fetch_query.
  rewrite Hd; simpl.
  destruct (InfiniteQuery.pages d) as [| p ps] eqn:E.
  - rewrite nextPageParam_no_page in Hn by assumption; discriminate.
  - unfold InfiniteQuery.fetchNext; rewrite Hn.
    unfold InfiniteQuery.fetchPage, bind, ret.
    destruct (InfiniteQuery.queryFn o (Some c) w) as [[page | e] w']; reflexivity.
Qed.

(** A fetch with no page cached (first load, by mount or by
    [fetchNextPage]): one call of [queryFn] with the first param. *)
Lemma fetch_query_first (more : bool) (q : State) (w : World) :
  InfiniteQuery.pages (coalesce (InfiniteQuery.data q) InfiniteQuery.no_data) = [] ->
  let first := hd (InfiniteQuery.initialPageParam o)
                  (InfiniteQuery.pageParams
                     (coalesce (InfiniteQuery.data q) InfiniteQuery.no_data)) in
  InfiniteQuery.fetch_query o more q w =
  ({| InfiniteQuery.data := InfiniteQuery.data q;
      InfiniteQuery.error :=
        match InfiniteQuery.data q with
        | None => None
        | Some _ => InfiniteQuery.error q
        end;
      InfiniteQuery.pending :=
        Some {| InfiniteQuery.fetchMore := more;
                InfiniteQuery.promise :=
                  match fst (InfiniteQuery.queryFn o (Some first) w) with
                  | Fulfilled page =>
                      Fulfilled (InfiniteQuery.addToEnd InfiniteQuery.no_data page first)
                  | Rejected e => Rejected e
                  end |} |},
   snd (InfiniteQuery.queryFn o (Some first) w)).
Proof.
  intros E first.
  unfold InfiniteQuery.fetch_query.
  rewrite E.
  destruct more; simpl;
    unfold InfiniteQuery.fetchAll, InfiniteQuery.fetchPage, bind, ret;
    rewrite E; simpl; fold first;
    destruct (InfiniteQuery.queryFn o (Some first) w) as [[page | e] w'];
    reflexivity.
Qed.

(** Settling a fulfilled or a rejected fetch. *)
Lemma settle_fulfilled (q : State) more (d : Data) :
  InfiniteQuery.pending q =
    Some {| InfiniteQuery.fetchMore := more; InfiniteQuery.promise := Fulfilled d |} ->
  InfiniteQuery.settle q =
    {| InfiniteQuery.data := Some d; InfiniteQuery.error := None;
       InfiniteQuery.pending := None |}.
Proof. intros E; unfold InfiniteQuery.settle; now rewrite E. Qed.

Lemma settle_rejected (q : State) more (e : Exception) :
  InfiniteQuery.pending q =
    Some {| InfiniteQuery.fetchMore := more; InfiniteQuery.promise := Rejected e |} ->
  InfiniteQuery.settle q =
    {| InfiniteQuery.data := InfiniteQuery.data q; InfiniteQuery.error := Some e;
       InfiniteQuery.pending := None |}.
Proof. intros E; unfold InfiniteQuery.settle; now rewrite E. Qed.

Lemma settle_idle (q : State) :
  InfiniteQuery.pending q = None -> InfiniteQuery.settle q = q.
Proof. intros E; unfold InfiniteQuery.settle; now rewrite E. Qed.

(** [fetchNextPage] by the cursor: nothing to fetch, or one call of
    [queryFn] at the cursor. *)
Lemma fetchNextPage_run (q : State) (w : World) :
  InfiniteQuery.fetchNextPage o q w =
  match InfiniteQuery.cursor o (InfiniteQuery.data q) with
  | None =>
      ({| InfiniteQuery.data := InfiniteQuery.data q;
          InfiniteQuery.error := InfiniteQuery.error q;
          InfiniteQuery.pending :=
            Some {| InfiniteQuery.fetchMore := true;
                    InfiniteQuery.promise :=
                      Fulfilled (coalesce (InfiniteQuery.data q) InfiniteQuery.no_data) |} |},
       w)
  | Some (base, param) =>
      ({| InfiniteQuery.data := InfiniteQuery.data q;
          InfiniteQuery.error :=
            match InfiniteQuery.data q with
            | None => None
            | Some _ => InfiniteQuery.error q
            end;
          InfiniteQuery.pending :=
            Some {| InfiniteQuery.fetchMore := true;
                    InfiniteQuery.promise :=
                      match fst (InfiniteQuery.queryFn o (Some param) w) with
                      | Fulfilled page =>
                          Fulfilled (InfiniteQuery.addToEnd base page param)
                      | Rejected e => Rejected e
                      end |} |},
       snd (InfiniteQuery.queryFn o (Some param) w))
  end.
Proof.
  unfold InfiniteQuery.cursor.
  destruct (InfiniteQuery.pages (coalesce (InfiniteQuery.data q) InfiniteQuery.no_data))
    as [| p ps] eqn:E.
  - unfold InfiniteQuery.fetchNextPage.
    now rewrite fetch_query_first.
  - destruct (InfiniteQuery.data q) as [d |] eqn:Hd; simpl in E; [| discriminate].
    simpl coalesce.
    destruct (InfiniteQuery.nextPageParam o d) as [c |] eqn:Hn.
    + now rewrite (fetchNextPage_next q d c w Hd Hn).
    + rewrite (fetchNextPage_exhausted q d w Hd); [reflexivity | | assumption].
      now rewrite E.
Qed.

(** What [loadNext] leaves behind, by the cursor. *)
Lemma loadNext_run (q : State) (w : World) :
  InfiniteQuery.loadNext o (q, w) =
  match InfiniteQuery.cursor o (InfiniteQuery.data q) with
  | None =>
      ({| InfiniteQuery.data := Some (coalesce (InfiniteQuery.data q) InfiniteQuery.no_data);
          InfiniteQuery.error := None;
          InfiniteQuery.pending := None |}, w)
  | Some (base, param) =>
      (match fst (InfiniteQuery.queryFn o (Some param) w) with
       | Fulfilled page =>
           {| InfiniteQuery.data := Some (InfiniteQuery.addToEnd base page param);
              InfiniteQuery.error := None;
              InfiniteQuery.pending := None |}
       | Rejected e =>
           {| InfiniteQuery.data := InfiniteQuery.data q;
              InfiniteQuery.error := Some e;
              InfiniteQuery.pending := None |}
       end,
       snd (InfiniteQuery.queryFn o (Some param) w))
  end.
Proof.
  unfold InfiniteQuery.loadNext; simpl fst; simpl snd.
  rewrite fetchNextPage_run.
  destruct (InfiniteQuery.cursor o (InfiniteQuery.data q)) as [[base param] |].
  - simpl. unfold InfiniteQuery.settle; simpl.
    destruct (fst (InfiniteQuery.queryFn o (Some param) w)); reflexivity.
  - reflexivity.
Qed.

(** With a last page, the cursor is its successor. *)
Lemma cursor_last (d : Data) ps p :
  InfiniteQuery.pages d = (ps ++ [p])%list ->
  InfiniteQuery.cursor o (Some d) =
  match InfiniteQuery.getNextPageParam o p with
  | Some param => Some (d, param)
  | None => None
  end.
Proof.
  intros E; unfold InfiniteQuery.cursor; simpl coalesce.
  rewrite (nextPageParam_last d ps p E).
  rewrite E; destruct ps; reflexivity.
Qed.

End Controller.

(** The hook's callback: a successor exactly when [skip + limit < total]. *)
Lemma getNextPageParam_spec (p : ProductsResponse) :
  (getNextPageParam p = Some (skip p + limit p) /\ skip p + limit p < total p)
  \/ (getNextPageParam p = None /\ total p <= skip p + limit p).
Proof.
  unfold getNextPageParam.
  destruct (Z.ltb_spec (skip p + limit p) (total p)); [left | right]; auto.
Qed.

(** [hasNextPage] reads the last page only. *)
Lemma hasNextPage_last (svc : IProductService) (opts : UseProductsOptions)
    (d : InfiniteQuery.InfiniteData ProductsResponse Z) ps p :
  InfiniteQuery.pages d = (ps ++ [p])%list ->
  InfiniteQuery.hasNextPage (useProducts svc opts) (Some d)
  = (skip p + limit p <? total p).
Proof.
  intros E; unfold InfiniteQuery.hasNextPage.
  rewrite (nextPageParam_last _ d ps p E); simpl.
  unfold getNextPageParam.
  now destruct (skip p + limit p <? total p).
Qed.

(** Once the last page is the final one, any number of [loadNext] calls
    leaves the world and the data as they are. *)
Lemma loadNext_exhausted_iter (svc : IProductService) (opts : UseProductsOptions)
    (q : Query) d ps p (n : nat) (w : World) :
  InfiniteQuery.data q = Some d ->
  InfiniteQuery.pages d = (ps ++ [p])%list ->
  total p <= skip p + limit p ->
  snd (Nat.iter n (InfiniteQuery.loadNext (useProducts svc opts)) (q, w)) = w
  /\ InfiniteQuery.data
       (fst (Nat.iter n (InfiniteQuery.loadNext (useProducts svc opts)) (q, w)))
     = Some d.
Proof.
  intros Hd Hp Hend.
  induction n as [| n [IHw IHd]]; [now split |].
  simpl Nat.iter.
  destruct (Nat.iter n (InfiniteQuery.loadNext (useProducts svc opts)) (q, w))
    as [qn wn]; simpl in IHw, IHd; subst wn.
  rewrite loadNext_run, IHd, (cursor_last _ d ps p Hp); simpl.
  destruct (getNextPageParam_spec p) as [[_ Hlt] | [-> _]]; [lia |].
  now split.
Qed.

(** C2.  With [p] the most recent page, [hasNextPage] holds exactly when
    [p.skip + p.limit < p.total]; once [p.skip + p.limit >= p.total] it
    is false, and every further [loadNext] is a no-op: no fetch is issued
    (the world, its request log included, is unchanged) and the pages
    stay as they are. *)
Theorem hasMore_iff_and_final_page_stops (svc : IProductService)
    (opts : UseProductsOptions) (q : Query)
    (d : InfiniteQuery.InfiniteData ProductsResponse Z) ps p :
  let o := useProducts svc opts in
  InfiniteQuery.data q = Some d ->
  InfiniteQuery.pages d = (ps ++ [p])%list ->
  (InfiniteQuery.hasNextPage o (InfiniteQuery.data q) = true
   <-> skip p + limit p < total p)
  /\ (total p <= skip p + limit p ->
      InfiniteQuery.hasNextPage o (InfiniteQuery.data q) = false
      /\ forall (n : nat) (w : World),
           let s := Nat.iter n (InfiniteQuery.loadNext o) (q, w) in
           snd s = w
           /\ requests (snd s) = requests w
           /\ InfiniteQuery.data (fst s) = InfiniteQuery.data q
           /\ InfiniteQuery.hasNextPage o (InfiniteQuery.data (fst s)) = false).
Proof.
  intros o Hd Hp; subst o.
  rewrite Hd, (hasNextPage_last svc opts d ps p Hp).
  split; [apply Z.ltb_lt |].
  intros Hend.
  assert (Hfalse : (skip p + limit p <? total p) = false) by (apply Z.ltb_ge; lia).
  split; [assumption |].
  intros n w s; subst s.
  destruct (loadNext_exhausted_iter svc opts q d ps p n w Hd Hp Hend) as [Hw Hdata].
  rewrite Hw, Hdata, (hasNextPage_last svc opts d ps p Hp).
  auto.
Qed.

Lemma hasMore_iff_and_final_page_stops_witness :
  let o := clientOptions (seeded (page 20 20 0 20)) in
  InfiniteQuery.hasNextPage o (InfiniteQuery.data (InfiniteQuery.initialState o)) = false
  /\ requests (snd (Nat.iter 3 (InfiniteQuery.loadNext o)
                      (InfiniteQuery.initialState o, catalog100))) = [].
Proof.
  intros o.
  destruct (hasMore_iff_and_final_page_stops productService
              {| pageSize := None; UseProducts.initialData := Some (page 20 20 0 20) |}
              (InfiniteQuery.initialState o)
              {| InfiniteQuery.pages := [page 20 20 0 20];
                 InfiniteQuery.pageParams := [0] |}
              [] (page 20 20 0 20) eq_refl eq_refl) as [_ H].
  destruct H as [Hno Hrun]; [simpl; lia |].
  split; [exact Hno |].
  destruct (Hrun 3%nat catalog100) as [_ [Hreq _]].
  exact Hreq.
Defined.

(** The real service puts one request on the wire per [queryFn] call. *)
Lemma queryFn_world (opts : UseProductsOptions) (param : Z) (w : World) :
  snd (InfiniteQuery.queryFn (useProducts productService opts) (Some param) w)
  = sent (productsRequest (coalesce (pageSize opts) 20) param) w.
Proof. simpl; apply fetchProducts_world. Qed.

(** C4.  When a [loadNext] fails, the controller keeps what it had: the
    pages (and so the flattened list) are those from before the call, no
    page is added, the cursor and [hasNextPage] are unchanged, the error
    is the one surfaced, and a retry puts the same request (same offset)
    on the wire as the failed attempt did. *)
Theorem failed_loadNext_keeps_pages_and_cursor (opts : UseProductsOptions)
    (q : Query) (w : World) (e : Exception) :
  let o := useProducts productService opts in
  let q1 := fst (InfiniteQuery.fetchNextPage o q w) in
  let w1 := snd (InfiniteQuery.fetchNextPage o q w) in
  let q2 := InfiniteQuery.settle q1 in
  InfiniteQuery.pending q1 =
    Some {| InfiniteQuery.fetchMore := true; InfiniteQuery.promise := Rejected e |} ->
  InfiniteQuery.data q2 = InfiniteQuery.data q
  /\ allProducts q2 = allProducts q
  /\ InfiniteQuery.cursor o (InfiniteQuery.data q2)
     = InfiniteQuery.cursor o (InfiniteQuery.data q)
  /\ InfiniteQuery.hasNextPage o (InfiniteQuery.data q2)
     = InfiniteQuery.hasNextPage o (InfiniteQuery.data q)
  /\ InfiniteQuery.error q2 = Some e
  /\ InfiniteQuery.pending q2 = None
  /\ exists r,
       requests w1 = (requests w ++ [r])%list
       /\ requests (snd (InfiniteQuery.fetchNextPage o q2 w1))
          = (requests w1 ++ [r])%list.
Proof.
  intros o q1 w1 q2 Hrej.
  assert (Hq2 : q2 = {| InfiniteQuery.data := InfiniteQuery.data q1;
                        InfiniteQuery.error := Some e;
                        InfiniteQuery.pending := None |})
    by (subst q2; now rewrite (settle_rejected q1 true e Hrej)).
  assert (Hd1 : InfiniteQuery.data q1 = InfiniteQuery.data q).
  { subst q1; rewrite fetchNextPage_run.
    now destruct (InfiniteQuery.cursor o (InfiniteQuery.data q)) as [[base param] |]. }
  assert (Hd2 : InfiniteQuery.data q2 = InfiniteQuery.data q)
    by (rewrite Hq2; exact Hd1).
  split; [exact Hd2 |].
  split; [unfold allProducts; now rewrite Hd2 |].
  split; [now rewrite Hd2 |].
  split; [now rewrite Hd2 |].
  split; [now rewrite Hq2 |].
  split; [now rewrite Hq2 |].
  subst w1. rewrite (fetchNextPage_run o q2), Hd2.
  subst q1. rewrite (fetchNextPage_run o q w) in Hrej |- *.
  destruct (InfiniteQuery.cursor o (InfiniteQuery.data q)) as [[base param] |].
  - exists (productsRequest (coalesce (pageSize opts) 20) param).
    cbv zeta beta iota. cbn [snd]. subst o.
    now rewrite !queryFn_world.
  - discriminate Hrej.
Qed.

Lemma failed_loadNext_keeps_pages_and_cursor_witness :
  let o := clientOptions noSeed in
  let s1 := InfiniteQuery.loadNext o (InfiniteQuery.initialState o, dropsAfterFirst) in
  let q2 := InfiniteQuery.settle (fst (InfiniteQuery.fetchNextPage o (fst s1) (snd s1))) in
  let w2 := snd (InfiniteQuery.fetchNextPage o (fst s1) (snd s1)) in
  InfiniteQuery.data q2 = InfiniteQuery.data (fst s1)
  /\ InfiniteQuery.error q2 = Some (TypeError "Failed to fetch")
  /\ exists r,
       requests w2 = [productsRequest 20 0; r]
       /\ requests (snd (InfiniteQuery.fetchNextPage o q2 w2))
          = [productsRequest 20 0; r; r].
Proof.
  intros o s1 q2 w2.
  destruct (failed_loadNext_keeps_pages_and_cursor
              {| pageSize := None; UseProducts.initialData := None |}
              (fst s1) (snd s1) (TypeError "Failed to fetch") eq_refl)
    as [Hdata [_ [_ [_ [Herr [_ [r [Hfirst Hretry]]]]]]]].
  split; [exact Hdata |].
  split; [exact Herr |].
  exists r; split; [exact Hfirst |].
  etransitivity; [exact Hretry |].
  rewrite Hfirst; reflexivity.
Defined.

(** A first load that fails leaves nothing cached, and the retry asks
    for offset 0 again. *)
Example failed_first_load_is_retried_at_0 :
  let o := clientOptions noSeed in
  let s1 := InfiniteQuery.loadNext o (InfiniteQuery.initialState o, flaky) in
  let s2 := InfiniteQuery.loadNext o s1 in
  InfiniteQuery.data (fst s1) = None
  /\ InfiniteQuery.error (fst s1) = Some (TypeError "Failed to fetch")
  /\ requests (snd s2) = [productsRequest 20 0; productsRequest 20 0]
  /\ allProducts (fst s2) = items 20 0.
Proof. repeat split. Qed.

(** ** The flattened list *)

(** The pages a query holds. *)
Lemma allProducts_pages (q : Query) :
  allProducts q
  = flat_map products
      (InfiniteQuery.pages (coalesce (InfiniteQuery.data q) InfiniteQuery.no_data)).
Proof. unfold allProducts; now destruct (InfiniteQuery.data q). Qed.

(** The data a fetch at the cursor extends holds the pages cached. *)
Lemma cursor_base (o : InfiniteQuery.Options ProductsResponse Z)
    (dq : option (InfiniteQuery.InfiniteData ProductsResponse Z)) base param :
  InfiniteQuery.cursor o dq = Some (base, param) ->
  InfiniteQuery.pages base
  = InfiniteQuery.pages (coalesce dq InfiniteQuery.no_data).
Proof.
  unfold InfiniteQuery.cursor.
  destruct (InfiniteQuery.pages (coalesce dq InfiniteQuery.no_data)) as [| p ps] eqn:E.
  - now intros [= <- _].
  - destruct (InfiniteQuery.nextPageParam o (coalesce dq InfiniteQuery.no_data));
      [| discriminate].
    now intros [= <- _].
Qed.

Lemma list_not_longer {A} (l : list A) (a : A) : l <> (l ++ [a])%list.
Proof.
  intros E; apply (f_equal (@List.length A)) in E.
  rewrite length_app in E; simpl in E; lia.
Qed.

(** A [loadNext] that put a request on the wire and got a page back has
    added that page after the pages cached. *)
Lemma loadNext_adds_page (opts : UseProductsOptions) (q : Query) (w : World)
    r resp p :
  requests (snd (InfiniteQuery.loadNext (useProducts productService opts) (q, w)))
  = (requests w ++ [r])%list ->
  network w (requests w) r = Responds resp ->
  ok resp = true ->
  json resp = inr p ->
  InfiniteQuery.pages
    (coalesce (InfiniteQuery.data
                 (fst (InfiniteQuery.loadNext (useProducts productService opts) (q, w))))
              InfiniteQuery.no_data)
  = (InfiniteQuery.pages (coalesce (InfiniteQuery.data q) InfiniteQuery.no_data)
       ++ [p])%list.
Proof.
  intros Hreq Hnet Hok Hjson; revert Hreq.
  rewrite (loadNext_run (useProducts productService opts) q w).
  destruct (InfiniteQuery.cursor (useProducts productService opts) (InfiniteQuery.data q))
    as [[base param] |] eqn:Hc.
  - cbn [fst snd]. rewrite queryFn_world; simpl requests.
    intros Hreq; apply app_inv_head in Hreq; injection Hreq as <-.
    simpl InfiniteQuery.queryFn.
    rewrite fetchProducts_run; cbn [fst].
    rewrite Hnet, Hok, Hjson; simpl.
    now rewrite (cursor_base _ _ _ _ Hc).
  - simpl; intros Hreq; now apply list_not_longer in Hreq.
Qed.

Lemma Loads_pages (opts : UseProductsOptions) (s s' : Sys) ps :
  Loads (useProducts productService opts) s ps s' ->
  InfiniteQuery.pages (coalesce (InfiniteQuery.data (fst s')) InfiniteQuery.no_data)
  = (InfiniteQuery.pages (coalesce (InfiniteQuery.data (fst s)) InfiniteQuery.no_data)
       ++ ps)%list.
Proof.
  induction 1 as [s | s r resp p ps s' Hreq Hnet Hok Hjson _ IH].
  - now rewrite app_nil_r.
  - rewrite IH. destruct s as [q w]; simpl in Hreq, Hnet.
    rewrite (loadNext_adds_page opts q w r resp p Hreq Hnet Hok Hjson).
    now rewrite <- app_assoc.
Qed.

(** What a [loadNext] did that put a request on the wire and got a page
    back: it asked for the cursor and added the page after the data the
    cursor extends. *)
Lemma loadNext_fetched (opts : UseProductsOptions) (q : Query) (w : World)
    r resp p :
  requests (snd (InfiniteQuery.loadNext (useProducts productService opts) (q, w)))
  = (requests w ++ [r])%list ->
  network w (requests w) r = Responds resp ->
  ok resp = true ->
  json resp = inr p ->
  exists base c,
    InfiniteQuery.cursor (useProducts productService opts) (InfiniteQuery.data q)
    = Some (base, c)
    /\ r = productsRequest (coalesce (pageSize opts) 20) c
    /\ InfiniteQuery.loadNext (useProducts productService opts) (q, w)
       = ({| InfiniteQuery.data := Some (InfiniteQuery.addToEnd base p c);
             InfiniteQuery.error := None;
             InfiniteQuery.pending := None |},
          sent r w).
Proof.
  intros Hreq Hnet Hok Hjson; revert Hreq.
  rewrite (loadNext_run (useProducts productService opts) q w).
  destruct (InfiniteQuery.cursor (useProducts productService opts) (InfiniteQuery.data q))
    as [[base c] |] eqn:Hc.
  - cbn [fst snd]. rewrite queryFn_world; simpl requests.
    intros Hreq; apply app_inv_head in Hreq; injection Hreq as <-.
    exists base, c; split; [reflexivity |]; split; [reflexivity |].
    simpl InfiniteQuery.queryFn.
    rewrite fetchProducts_run; cbn [fst].
    now rewrite Hnet, Hok, Hjson.
  - simpl; intros Hreq; now apply list_not_longer in Hreq.
Qed.

Lemma firstn_plus {A} (a b : nat) (l : list A) :
  firstn (a + b) l = (firstn a l ++ firstn b (skipn a l))%list.
Proof.
  revert l; induction a as [| a IH]; intros l; [reflexivity |].
  destruct l as [| x l]; simpl; [now rewrite firstn_nil | now rewrite IH].
Qed.

(** Adjacent slices make one slice. *)
Lemma slice_app {A} (from a b : Z) (l : list A) :
  0 <= from -> 0 <= a -> 0 <= b ->
  (slice from a l ++ slice (from + a) b l)%list = slice from (a + b) l.
Proof.
  intros Hf Ha Hb; unfold slice.
  rewrite !Z2Nat.inj_add by assumption.
  rewrite firstn_plus, skipn_skipn.
  now rewrite (Nat.add_comm (Z.to_nat a)).
Qed.

Lemma NoDup_slice {A} (from count : Z) (l : list A) :
  NoDup l -> NoDup (slice from count l).
Proof.
  intros H; unfold slice.
  rewrite <- (firstn_skipn (Z.to_nat from) l) in H.
  apply NoDup_app_remove_l in H.
  rewrite <- (firstn_skipn (Z.to_nat count) (skipn (Z.to_nat from) l)) in H.
  now apply NoDup_app_remove_r in H.
Qed.

Section Catalog.

Variable opts : UseProductsOptions.
Variable catalog : list Product.
Variable net : list Request -> Request -> Transport.

Local Abbreviation o := (useProducts productService opts).

Hypothesis served : servesCatalog (coalesce (pageSize opts) 20) catalog net.

(** A fetched page extends the window by its limit: the next offset is
    the page's [skip + limit], which is where the page ends. *)
Lemma Loads_window (s s' : Sys) ps :
  Loads o s ps s' ->
  network (snd s) = net ->
  forall first next,
    window o catalog (fst s) first next ->
    exists next', window o catalog (fst s') first next'.
Proof.
  induction 1 as [s | s r resp p ps s' Hreq Hnet Hok Hjson _ IH];
    intros Hw first next Hwin; [now exists next |].
  destruct s as [q w]; cbn [fst snd] in *.
  destruct (loadNext_fetched opts q w r resp p Hreq Hnet Hok Hjson)
    as [base [c [Hc [Hr Hload]]]].
  destruct Hwin as [Hrange [Hall Hcur]].
  assert (c = next) by (now apply (Hcur base)); subst c.
  destruct (served (requests w) next resp p) as [Hskip [Hs0 [Hl0 Hprods]]];
    [lia | now rewrite <- Hw, <- Hr | assumption |].
  apply (IH (eq_trans (f_equal (fun x => network (snd x)) Hload) Hw)
            first (next + limit p)).
  rewrite Hload; cbn [fst].
  split; [lia |]. split.
  - unfold allProducts at 1; cbn [InfiniteQuery.data InfiniteQuery.addToEnd
                                  InfiniteQuery.pages].
    rewrite flat_map_app, (cursor_base _ _ _ _ Hc), <- allProducts_pages, Hall.
    simpl flat_map; rewrite app_nil_r, Hprods, Hskip.
    replace (next + limit p - first) with ((next - first) + limit p) by lia.
    rewrite <- slice_app by lia.
    now replace (first + (next - first)) with next by lia.
  - intros base' c'; cbn [InfiniteQuery.data].
    rewrite (cursor_last o (InfiniteQuery.addToEnd base p next)
               (InfiniteQuery.pages base) p) by reflexivity.
    cbn [InfiniteQuery.getNextPageParam useProducts].
    destruct (getNextPageParam_spec p) as [[-> _] | [-> _]]; [| discriminate].
    intros [= _ <-]; lia.
Qed.

End Catalog.


Lemma catalog100_serves_a_catalog :
  servesCatalog 20 (items 100 0) (network catalog100).
Proof.
  intros seen c resp p Hc.
  unfold catalog100, world, okJson; cbn [network url productsRequest].
  destruct (products_url 20 c =? products_url 20 0)%string eqn:E0.
  { apply String.eqb_eq, products_url_skip_inj in E0; subst c.
    intros [= <-] [= <-]; repeat split; simpl; lia. }
  destruct (products_url 20 c =? products_url 20 20)%string eqn:E1.
  { apply String.eqb_eq, products_url_skip_inj in E1; subst c.
    intros [= <-] [= <-]; repeat split; simpl; lia. }
  destruct (products_url 20 c =? products_url 20 40)%string eqn:E2.
  { apply String.eqb_eq, products_url_skip_inj in E2; subst c.
    intros [= <-] [= <-]; repeat split; simpl; lia. }
  discriminate.
Qed.



(** ** The scroll trigger *)

(** The handler by its guard: it calls [onLoadMore] once, or leaves the
    state alone. *)
Lemma handleIntersection_guard (gp : ProductGridProps)
    (entries : list IntersectionObserverEntry) (s : Sys) :
  let fires := hd false (map isIntersecting entries)
               && negb (isLoading gp) && hasMore gp in
  (fires = true -> handleIntersection gp entries s = (Fulfilled tt, onLoadMore gp s))
  /\ (fires = false -> snd (handleIntersection gp entries s) = s).
Proof.
  destruct entries as [| entry rest]; simpl.
  - split; [discriminate | reflexivity].
  - destruct (isIntersecting entry && negb (isLoading gp) && hasMore gp);
      split; intros; try discriminate; reflexivity.
Qed.

(** In the mounted component an observer report either leaves the
    system alone or is one [fetchNextPage]. *)
Lemma step_intersect (props : ProductListClientProps) (q : Query) (w : World)
    (entries : list IntersectionObserverEntry) :
  step props (q, w) (Intersect entries) = (q, w)
  \/ (hd false (map isIntersecting entries) = true
      /\ shownError q = None
      /\ InfiniteQuery.isFetchingNextPage q = false
      /\ InfiniteQuery.hasNextPage (clientOptions props) (InfiniteQuery.data q) = true
      /\ step props (q, w) (Intersect entries)
         = InfiniteQuery.fetchNextPage (clientOptions props) q w).
Proof.
  unfold step, ProductListClient; cbn [fst snd].
  destruct (shownError q) as [e |]; [now left |].
  destruct (InfiniteQuery.isLoading q && _); [now left |].
  cbn [sentinel ProductGrid].
  match goal with
  | |- context [handleIntersection ?gp entries (q, w)] =>
      destruct (handleIntersection_guard gp entries (q, w)) as [Hyes Hno];
      cbn [isLoading hasMore onLoadMore fst snd] in Hyes, Hno
  end.
  destruct (hd false (map isIntersecting entries)
            && negb (InfiniteQuery.isFetchingNextPage q)
            && InfiniteQuery.hasNextPage (clientOptions props) (InfiniteQuery.data q))
    eqn:G.
  - right. rewrite (Hyes eq_refl); cbn [snd].
    apply andb_prop in G as [G Hmore]; apply andb_prop in G as [Hint Hload].
    apply negb_true_iff in Hload. auto.
  - left. now rewrite (Hno eq_refl).
Qed.

(** An observer report, by the render its callback comes from: it
    leaves the system alone, or it is one [fetchNextPage] on the system
    as it is now. *)
Lemma report_effect (props : ProductListClientProps) (m : Mounted)
    (entries : list IntersectionObserverEntry) :
  rendered (happen props m (Report entries)) = rendered m
  /\ (current (happen props m (Report entries)) = current m
      \/ (hd false (map isIntersecting entries) = true
          /\ shownError (rendered m) = None
          /\ InfiniteQuery.isFetchingNextPage (rendered m) = false
          /\ InfiniteQuery.hasNextPage (clientOptions props)
               (InfiniteQuery.data (rendered m)) = true
          /\ current (happen props m (Report entries))
             = InfiniteQuery.fetchNextPage (clientOptions props)
                 (fst (current m)) (snd (current m)))).
Proof.
  unfold happen, ProductListClient.
  destruct (shownError (rendered m)) as [e |]; [now split; [| left] |].
  destruct (InfiniteQuery.isLoading (rendered m) && _); [now split; [| left] |].
  cbn [sentinel ProductGrid current rendered]. split; [reflexivity |].
  match goal with
  | |- context [handleIntersection ?gp entries (current m)] =>
      destruct (handleIntersection_guard gp entries (current m)) as [Hyes Hno];
      cbn [isLoading hasMore onLoadMore] in Hyes, Hno
  end.
  destruct (hd false (map isIntersecting entries)
            && negb (InfiniteQuery.isFetchingNextPage (rendered m))
            && InfiniteQuery.hasNextPage (clientOptions props)
                 (InfiniteQuery.data (rendered m)))
    eqn:G.
  - right. rewrite (Hyes eq_refl); cbn [snd].
    apply andb_prop in G as [G Hmore]; apply andb_prop in G as [Hint Hload].
    apply negb_true_iff in Hload. auto.
  - left. now rewrite (Hno eq_refl).
Qed.

(** [step] on an observer report is the case where the list has
    rendered the current state before the report arrives. *)
Lemma step_is_render_then_report (props : ProductListClientProps) (s : Sys)
    (seenBefore : Query) (entries : list IntersectionObserverEntry) :
  step props s (Intersect entries)
  = current (happenings props [Rerender; Report entries]
               {| current := s; rendered := seenBefore |}).
Proof.
  unfold happenings; simpl.
  now destruct (ProductListClient props (fst s)).
Qed.

(** With no next page, nothing in flight, and a last render that saw no
    next page either, nothing that happens changes the system. *)
Lemma happenings_exhausted_idle (props : ProductListClientProps)
    (hs : list Happening) (m : Mounted) :
  InfiniteQuery.hasNextPage (clientOptions props)
    (InfiniteQuery.data (fst (current m))) = false ->
  InfiniteQuery.pending (fst (current m)) = None ->
  InfiniteQuery.hasNextPage (clientOptions props)
    (InfiniteQuery.data (rendered m)) = false ->
  current (happenings props hs m) = current m.
Proof.
  unfold happenings.
  revert m; induction hs as [| h hs IH]; intros m Hmore Hidle Hseen; [reflexivity |].
  simpl fold_left.
  assert (Hstep : current (happen props m h) = current m
                  /\ InfiniteQuery.hasNextPage (clientOptions props)
                       (InfiniteQuery.data (rendered (happen props m h))) = false).
  { destruct h as [| entries |].
    - simpl; auto.
    - destruct (report_effect props m entries) as [Hr [E | [_ [_ [_ [H _]]]]]];
        [rewrite Hr; auto | congruence].
    - simpl. rewrite (settle_idle (fst (current m)) Hidle).
      now destruct (current m). }
  destruct Hstep as [Hc Hs].
  rewrite IH; [exact Hc | | |]; try rewrite Hc; assumption.
Qed.

(** C6 (as amended).  The observer callback calls [onLoadMore] only when
    the first reported entry is intersecting and, in the props of the
    render that created the callback, [isLoading] is false and
    [hasMore] is true; then it calls it once.  In the mounted component
    these props are [isFetchingNextPage] and [hasNextPage] as that render
    saw them, and the call is [fetchNextPage] on the query as it is now.
    Once the controller is exhausted with no fetch in flight and the last
    render saw it exhausted, nothing fires the trigger again, however
    often the sentinel re-enters the viewport. *)
Theorem scroll_trigger_is_gated (props : ProductListClientProps) (m : Mounted) :
  (forall (gp : ProductGridProps) entries (s : Sys),
     let fires := hd false (map isIntersecting entries)
                  && negb (isLoading gp) && hasMore gp in
     (fires = true -> handleIntersection gp entries s = (Fulfilled tt, onLoadMore gp s))
     /\ (fires = false -> snd (handleIntersection gp entries s) = s))
  /\ (forall entries,
        current (happen props m (Report entries)) <> current m ->
        hd false (map isIntersecting entries) = true
        /\ InfiniteQuery.isFetchingNextPage (rendered m) = false
        /\ InfiniteQuery.hasNextPage (clientOptions props)
             (InfiniteQuery.data (rendered m)) = true
        /\ current (happen props m (Report entries))
           = InfiniteQuery.fetchNextPage (clientOptions props)
               (fst (current m)) (snd (current m)))
  /\ (InfiniteQuery.hasNextPage (clientOptions props)
        (InfiniteQuery.data (fst (current m))) = false ->
      InfiniteQuery.pending (fst (current m)) = None ->
      InfiniteQuery.hasNextPage (clientOptions props)
        (InfiniteQuery.data (rendered m)) = false ->
      forall hs, current (happenings props hs m) = current m).
Proof.
  split; [exact handleIntersection_guard |].
  split.
  - intros entries Hchanged.
    destruct (report_effect props m entries)
      as [_ [E | [Hint [_ [Hload [Hmore Hcall]]]]]];
      [contradiction | auto].
  - intros Hmore Hidle Hseen hs; now apply happenings_exhausted_idle.
Qed.

Lemma scroll_trigger_is_gated_witness :
  let last := mounted (seeded (page 20 20 0 20)) 300000 0 catalog100 in
  let more := mounted (seeded (page 20 100 0 20)) 300000 0 catalog100 in
  current (happenings (seeded (page 20 20 0 20))
             [Report [{| isIntersecting := true |}]; Settled; Rerender;
              Report [{| isIntersecting := false |}];
              Report [{| isIntersecting := true |}]] last)
  = current last
  /\ requests (snd (current (happen (seeded (page 20 100 0 20)) more
                               (Report [{| isIntersecting := true |}]))))
     = [productsRequest 20 20].
Proof.
  intros last more.
  split.
  - destruct (scroll_trigger_is_gated (seeded (page 20 20 0 20)) last) as [_ [_ H]].
    exact (H eq_refl eq_refl eq_refl _).
  - destruct (scroll_trigger_is_gated (seeded (page 20 100 0 20)) more) as [_ [H _]].
    destruct (H [{| isIntersecting := true |}]) as [_ [_ [_ Hcall]]].
    + intros E.
      discriminate (f_equal (fun s : Sys => InfiniteQuery.pending (fst s)) E).
    + rewrite Hcall; reflexivity.
Defined.

(** C6, as stated, fails on each of its three counts.  With a stale seed
    being refetched (a load in flight) a report calls [fetchNextPage] all
    the same: two requests are out with none settled.  A list that is
    exhausted fires again once that refetch has brought a first page with
    more to come.  And a second report that arrives before the list has
    rendered again fires a second time while the first next-page load is
    still in flight. *)
Lemma scroll_trigger_fires_in_flight_and_after_exhaustion :
  let report := Report [{| isIntersecting := true |}] in
  let refetching := mounted (seeded (page 20 100 0 20)) 0 0 catalog100 in
  let exhausted := mounted (seeded (page 20 20 0 20)) 0 0 catalog100 in
  let fresh := mounted (seeded (page 20 100 0 20)) 300000 0 catalog100 in
  (InfiniteQuery.isFetching (fst (current refetching)) = true
   /\ requests (snd (current (happen (seeded (page 20 100 0 20)) refetching report)))
      = [productsRequest 20 0; productsRequest 20 20])
  /\ (InfiniteQuery.hasNextPage (clientOptions (seeded (page 20 20 0 20)))
        (InfiniteQuery.data (fst (current exhausted))) = false
      /\ requests (snd (current (happenings (seeded (page 20 20 0 20))
                                   [Settled; Rerender; report] exhausted)))
         = [productsRequest 20 0; productsRequest 20 20])
  /\ (InfiniteQuery.isFetchingNextPage
        (fst (current (happen (seeded (page 20 100 0 20)) fresh report))) = true
      /\ requests (snd (current (happenings (seeded (page 20 100 0 20))
                                   [report; report] fresh)))
         = [productsRequest 20 20; productsRequest 20 20]).
Proof. repeat split. Qed.

(** ** The error view *)

Section RealService.

Variable opts : UseProductsOptions.
Local Abbreviation o := (useProducts productService opts).

Lemma fetchPage_rejects d param w e :
  fst (InfiniteQuery.fetchPage o d param w) = Rejected e -> threeKinds e.
Proof.
  unfold InfiniteQuery.fetchPage, bind, ret.
  destruct (InfiniteQuery.queryFn o (Some param) w) as [[page | e'] w'] eqn:E;
    simpl; [discriminate |].
  intros [= <-].
  apply (fetchProducts_rejects (coalesce (pageSize opts) 20) param w).
  simpl in E. now rewrite E.
Qed.

Lemma fetchRest_rejects n d w e :
  fst (InfiniteQuery.fetchRest o n d w) = Rejected e -> threeKinds e.
Proof.
  revert d w; induction n as [| n IH]; intros d w; simpl; [discriminate |].
  destruct (InfiniteQuery.nextPageParam o d) as [param |]; [| discriminate].
  unfold bind.
  destruct (InfiniteQuery.fetchPage o d param w) as [[r | e'] w'] eqn:E.
  - apply IH.
  - simpl; intros [= <-].
    apply (fetchPage_rejects d param w); now rewrite E.
Qed.

(** Whatever fetch of the controller fails, it fails in one of the three
    ways of the catalog client. *)
Lemma fetch_query_rejects more (q : Query) w e :
  InfiniteQuery.pending (fst (InfiniteQuery.fetch_query o more q w))
  = Some {| InfiniteQuery.fetchMore := more; InfiniteQuery.promise := Rejected e |} ->
  threeKinds e.
Proof.
  unfold InfiniteQuery.fetch_query.
  set (old := coalesce (InfiniteQuery.data q) InfiniteQuery.no_data).
  assert (Hall : forall w e, fst (InfiniteQuery.fetchAll o old w) = Rejected e ->
                             threeKinds e).
  { intros w0 e0; unfold InfiniteQuery.fetchAll, bind.
    destruct (InfiniteQuery.fetchPage o InfiniteQuery.no_data _ w0)
      as [[r | e'] w'] eqn:E.
    - apply fetchRest_rejects.
    - simpl; intros [= <-]. eapply fetchPage_rejects; now rewrite E. }
  assert (Hnext : forall w e, fst (InfiniteQuery.fetchNext o old w) = Rejected e ->
                              threeKinds e).
  { intros w0 e0; unfold InfiniteQuery.fetchNext.
    destruct (InfiniteQuery.nextPageParam o old) as [param |].
    - apply fetchPage_rejects.
    - discriminate. }
  destruct more, (InfiniteQuery.pages old) as [| p ps];
    match goal with
    | |- context [let (_, _) := ?job w in _] =>
        specialize (Hall w); specialize (Hnext w);
        destruct (job w) as [settled w']; simpl in *;
        intros [= ->]; auto
    end.
Qed.

End RealService.

(** C7 (as amended).  When a fetch of the mounted list rejects, the
    component renders the error view alone: the line "Failed to load
    products" and, as reason, the message of the error (which is one of
    the three kinds of the catalog client).  No product card is rendered
    while the error stands; the controller still holds exactly the
    products loaded before, none if the first fetch failed. *)
Theorem rejected_fetch_shows_error_view (props : ProductListClientProps)
    (more : bool) (q : Query) (w : World) (e : Exception) :
  let o := clientOptions props in
  let q1 := fst (InfiniteQuery.fetch_query o more q w) in
  let q2 := InfiniteQuery.settle q1 in
  InfiniteQuery.pending q1
  = Some {| InfiniteQuery.fetchMore := more; InfiniteQuery.promise := Rejected e |} ->
  threeKinds e
  /\ ProductListClient props q2 = ErrorView "Failed to load products" (message e)
  /\ renderedProducts (ProductListClient props q2) = []
  /\ allProducts q2 = allProducts q
  /\ (InfiniteQuery.data q = None -> allProducts q2 = []).
Proof.
  intros o q1 q2 Hrej.
  assert (Hkind : threeKinds e) by (eapply fetch_query_rejects; exact Hrej).
  assert (Hq2 : q2 = {| InfiniteQuery.data := InfiniteQuery.data q;
                        InfiniteQuery.error := Some e;
                        InfiniteQuery.pending := None |}).
  { subst q2; rewrite (settle_rejected q1 more e Hrej).
    subst q1; unfold InfiniteQuery.fetch_query.
    now destruct (_ w). }
  assert (Hview : ProductListClient props q2
                  = ErrorView "Failed to load products" (message e)).
  { rewrite Hq2; unfold ProductListClient, shownError; simpl.
    now rewrite (threeKinds_truthy e Hkind), (threeKinds_instanceof e Hkind). }
  assert (Hall : allProducts q2 = allProducts q)
    by (rewrite Hq2; reflexivity).
  repeat split; auto.
  - now rewrite Hview.
  - intros Hnone; rewrite Hall; unfold allProducts; now rewrite Hnone.
Qed.

Lemma rejected_fetch_shows_error_view_witness :
  let q := InfiniteQuery.initialState (clientOptions noSeed) in
  let q2 := InfiniteQuery.settle
              (fst (InfiniteQuery.fetch_query (clientOptions noSeed) false q notFound)) in
  ProductListClient noSeed q2
  = ErrorView "Failed to load products" "Failed to fetch products: Not Found"
  /\ allProducts q2 = [].
Proof.
  intros q q2.
  destruct (rejected_fetch_shows_error_view noSeed false q notFound
              (Error "Failed to fetch products: Not Found") eq_refl)
    as [_ [Hview [_ [_ Hnone]]]].
  split; [exact Hview | exact (Hnone eq_refl)].
Defined.

(** C7, as stated, fails: after a first page of 20 products is on
    screen, a failing next-page fetch replaces the grid by the error
    view; the products rendered are no longer those loaded before. *)
Lemma error_view_replaces_the_grid :
  let before := run noSeed [Settle] (mount noSeed 0 0 dropsAfterFirst) in
  let after := run noSeed [Intersect [{| isIntersecting := true |}]; Settle] before in
  renderedProducts (ProductListClient noSeed (fst before)) = items 20 0
  /\ InfiniteQuery.error (fst after) = Some (TypeError "Failed to fetch")
  /\ allProducts (fst after) = items 20 0
  /\ ProductListClient noSeed (fst after)
     = ErrorView "Failed to load products" "Failed to fetch"
  /\ renderedProducts (ProductListClient noSeed (fst after))
     <> renderedProducts (ProductListClient noSeed (fst before)).
Proof.
  intros before after.
  repeat split; try reflexivity.
  vm_compute; discriminate.
Qed.

(** ** Scenarios *)

(** C8.  When [fetchProducts(20, 0)] resolves to a page with
    [total = 100], [skip = 0], [limit = 20], the controller holds that
    page, [hasNextPage] is true, and the next [fetchNextPage] calls
    [fetchProducts(20, 20)]: its effect on the world is that call's, and
    its promise is that call's page added after the first. *)
Theorem second_page_is_fetched_at_20 (svc : IProductService) (w : World)
    (p : ProductsResponse) (staleTime elapsed : Z) :
  let o := useProducts svc {| pageSize := None; UseProducts.initialData := None |} in
  let s0 := InfiniteQuery.onMount o staleTime elapsed (InfiniteQuery.initialState o) w in
  let q1 := InfiniteQuery.settle (fst s0) in
  fst (fetchProducts svc 20 0 w) = Fulfilled p ->
  total p = 100 -> skip p = 0 -> limit p = 20 ->
  snd s0 = snd (fetchProducts svc 20 0 w)
  /\ InfiniteQuery.data q1
     = Some {| InfiniteQuery.pages := [p]; InfiniteQuery.pageParams := [0] |}
  /\ InfiniteQuery.hasNextPage o (InfiniteQuery.data q1) = true
  /\ forall w',
       snd (InfiniteQuery.fetchNextPage o q1 w') = snd (fetchProducts svc 20 20 w')
       /\ InfiniteQuery.pending (fst (InfiniteQuery.fetchNextPage o q1 w'))
          = Some {| InfiniteQuery.fetchMore := true;
                    InfiniteQuery.promise :=
                      match fst (fetchProducts svc 20 20 w') with
                      | Fulfilled page =>
                          Fulfilled {| InfiniteQuery.pages := [p; page];
                                       InfiniteQuery.pageParams := [0; 20] |}
                      | Rejected e => Rejected e
                      end |}.
Proof.
  intros o s0 q1 Hfirst Htotal Hskip Hlimit.
  assert (Hs0 : s0 = ({| InfiniteQuery.data := None;
                         InfiniteQuery.error := None;
                         InfiniteQuery.pending :=
                           Some {| InfiniteQuery.fetchMore := false;
                                   InfiniteQuery.promise :=
                                     Fulfilled {| InfiniteQuery.pages := [p];
                                                  InfiniteQuery.pageParams := [0] |} |} |},
                      snd (fetchProducts svc 20 0 w))).
  { subst s0; unfold InfiniteQuery.onMount; simpl InfiniteQuery.data; cbv iota.
    rewrite (fetch_query_first o false (InfiniteQuery.initialState o) w eq_refl).
    simpl. now rewrite Hfirst. }
  assert (Hq1 : q1 = {| InfiniteQuery.data :=
                          Some {| InfiniteQuery.pages := [p];
                                  InfiniteQuery.pageParams := [0] |};
                        InfiniteQuery.error := None;
                        InfiniteQuery.pending := None |})
    by (subst q1; now rewrite Hs0).
  assert (Hnext : getNextPageParam p = Some 20).
  { unfold getNextPageParam; rewrite Htotal, Hskip, Hlimit; reflexivity. }
  split; [now rewrite Hs0 |].
  split; [now rewrite Hq1 |].
  split.
  - rewrite Hq1; simpl. unfold InfiniteQuery.hasNextPage, InfiniteQuery.nextPageParam.
    simpl. now rewrite Hnext.
  - intros w'.
    rewrite (fetchNextPage_next o q1 {| InfiniteQuery.pages := [p];
                                        InfiniteQuery.pageParams := [0] |} 20 w').
    + simpl. split; [reflexivity |].
      now destruct (fst (fetchProducts svc 20 20 w')).
    + now rewrite Hq1.
    + unfold InfiniteQuery.nextPageParam; simpl; exact Hnext.
Qed.

Lemma second_page_is_fetched_at_20_witness :
  let o := clientOptions noSeed in
  let s0 := InfiniteQuery.onMount o 0 0 (InfiniteQuery.initialState o) catalog100 in
  let q1 := InfiniteQuery.settle (fst s0) in
  InfiniteQuery.hasNextPage o (InfiniteQuery.data q1) = true
  /\ requests (snd (InfiniteQuery.fetchNextPage o q1 (snd s0)))
     = [productsRequest 20 0; productsRequest 20 20].
Proof.
  intros o s0 q1.
  destruct (second_page_is_fetched_at_20 productService catalog100
              (page 20 100 0 20) 0 0 eq_refl eq_refl eq_refl eq_refl)
    as [_ [_ [Hmore Hnext]]].
  split; [exact Hmore |].
  destruct (Hnext (snd s0)) as [Hworld _].
  exact (f_equal requests Hworld).
Defined.

(** C9 (as amended).  Seeded with a pre-fetched page of [skip = 0],
    [limit = 20], [total = 20] that is still fresh when the component
    mounts (less than the client's stale time has elapsed since it was
    seeded), the controller holds that page, [hasNextPage] is false,
    mounting issues no request, the page's products are on screen, and
    nothing that happens later issues one either. *)
Theorem seeded_last_page_needs_no_fetch (prods : list Product)
    (staleTime elapsed : Z) (w : World) :
  let p := {| products := prods; total := 20; skip := 0; limit := 20 |} in
  let props := {| Components.initialData := Some p |} in
  let o := clientOptions props in
  let s := mount props staleTime elapsed w in
  elapsed < staleTime ->
  InfiniteQuery.data (fst s)
  = Some {| InfiniteQuery.pages := [p]; InfiniteQuery.pageParams := [0] |}
  /\ InfiniteQuery.hasNextPage o (InfiniteQuery.data (fst s)) = false
  /\ snd s = w
  /\ requests (snd s) = requests w
  /\ InfiniteQuery.pending (fst s) = None
  /\ renderedProducts (ProductListClient props (fst s)) = prods
  /\ forall hs,
       current (happenings props hs (mounted props staleTime elapsed w)) = s.
Proof.
  intros p props o s Hfresh.
  assert (Hs : s = (InfiniteQuery.initialState o, w)).
  { subst s; unfold mount, InfiniteQuery.onMount, InfiniteQuery.isStale; simpl.
    destruct (Z.leb_spec staleTime elapsed); [lia | reflexivity]. }
  assert (Hm : mounted props staleTime elapsed w
               = {| current := (InfiniteQuery.initialState o, w);
                    rendered := InfiniteQuery.initialState o |}).
  { unfold mounted; fold s; now rewrite Hs. }
  rewrite Hs; cbn [fst snd].
  repeat split.
  - unfold ProductListClient, allProducts; simpl. now rewrite app_nil_r.
  - intros hs; rewrite Hm.
    now rewrite happenings_exhausted_idle.
Qed.

Lemma seeded_last_page_needs_no_fetch_witness :
  let props := seeded (page 20 20 0 20) in
  requests (snd (mount props 300000 0 catalog100)) = []
  /\ InfiniteQuery.hasNextPage (clientOptions props)
       (InfiniteQuery.data (fst (mount props 300000 0 catalog100))) = false.
Proof.
  intros props.
  destruct (seeded_last_page_needs_no_fetch (items 20 0) 300000 0 catalog100)
    as [_ [Hmore [_ [Hreq _]]]]; [lia |].
  split; [exact Hreq | exact Hmore].
Defined.

(** C9, as stated, fails: the same seed, already stale when the
    component mounts (as every seed is under a stale time of 0, the
    default of the library), is exhausted and yet refetched on mount, one
    request for offset 0. *)
Lemma stale_seed_is_refetched :
  let props := seeded (page 20 20 0 20) in
  let s := mount props 0 0 catalog100 in
  InfiniteQuery.hasNextPage (clientOptions props) (InfiniteQuery.data (fst s)) = false
  /\ requests (snd s) = [productsRequest 20 0]
  /\ requests (snd s) <> requests catalog100.
Proof. repeat split; discriminate. Qed.

(** C10.  When the server-side [fetchProducts(20, 0)] fails, whatever the
    error, [getInitialProducts] logs it and returns [null], the page
    still renders and hands the client component no initial data; the
    client then starts with no error, shows the loading view, and on
    mount fetches offset 0 itself. *)
Theorem failed_server_fetch_falls_back_to_client (w : World) (e : Exception) :
  fst (fetchProducts productService 20 0 w) = Rejected e ->
  fst (getInitialProducts w) = Fulfilled Null
  /\ fst (ProductsPage w)
     = Fulfilled {| heading := "Products";
                    tagline := "Explore our collection of products~";
                    productList := {| Components.initialData := None |} |}
  /\ console (snd (ProductsPage w))
     = (console w ++ [("Failed to fetch initial products:", e)])%list
  /\ forall (staleTime elapsed : Z) (client : World),
       let props := {| Components.initialData := None |} in
       let s := mount props staleTime elapsed client in
       requests (snd s) = (requests client ++ [productsRequest 20 0])%list
       /\ InfiniteQuery.data (fst s) = None
       /\ InfiniteQuery.error (fst s) = None
       /\ ProductListClient props (fst s) = LoadingView "Loading products...".
Proof.
  intros Hfail.
  assert (Hinit : getInitialProducts w
                  = (Fulfilled Null,
                     {| network := network w;
                        requests := requests (snd (fetchProducts productService 20 0 w));
                        console := (console w
                                    ++ [("Failed to fetch initial products:", e)])%list |})).
  { unfold getInitialProducts, try_catch, bind, console_error, ret.
    simpl fetchProducts in *.
    rewrite fetchProducts_run in Hfail |- *; simpl in Hfail |- *.
    rewrite Hfail; reflexivity. }
  split; [now rewrite Hinit |].
  assert (Hpage : ProductsPage w
                  = (Fulfilled {| heading := "Products";
                                  tagline := "Explore our collection of products~";
                                  productList := {| Components.initialData := None |} |},
                     snd (getInitialProducts w))).
  { unfold ProductsPage, bind, ret; now rewrite Hinit. }
  split; [now rewrite Hpage |].
  split; [now rewrite Hpage, Hinit |].
  intros staleTime elapsed client props s.
  subst s; unfold mount, InfiniteQuery.onMount; simpl InfiniteQuery.data; cbv iota.
  rewrite (fetch_query_first (clientOptions props) false
             (InfiniteQuery.initialState (clientOptions props)) client eq_refl).
  cbn [fst snd]. split.
  - simpl; now rewrite fetchProducts_world.
  - repeat split.
Qed.

Lemma failed_server_fetch_falls_back_to_client_witness :
  fst (ProductsPage offline)
  = Fulfilled {| heading := "Products";
                 tagline := "Explore our collection of products~";
                 productList := noSeed |}
  /\ requests (snd (mount noSeed 0 0 catalog100)) = [productsRequest 20 0].
Proof.
  destruct (failed_server_fetch_falls_back_to_client offline
              (TypeError "Failed to fetch") eq_refl) as [_ [Hpage [_ Hclient]]].
  split; [exact Hpage |].
  destruct (Hclient 0 0 catalog100) as [Hreq _].
  exact Hreq.
Defined.


(** * Further properties *)

(** ** The server component *)

(** [getInitialProducts] never rejects: it resolves to the page when the
    fetch succeeded and to [null], after one [console.error], when it
    failed. *)
Lemma getInitialProducts_run (w : World) :
  getInitialProducts w =
  match fst (ProductService_fetchProducts 20 0 w) with
  | Fulfilled p => (Fulfilled (NotNull p), sent (productsRequest 20 0) w)
  | Rejected e =>
      (Fulfilled Null,
       {| network := network w;
          requests := (requests w ++ [productsRequest 20 0])%list;
          console := (console w ++ [("Failed to fetch initial products:", e)])%list |})
  end.
Proof.
  unfold getInitialProducts, try_catch, bind, ret, console_error.
  simpl fetchProducts.
  rewrite fetchProducts_run; cbn [fst snd].
  destruct (network w (requests w) (productsRequest 20 0)) as [reason | resp];
    [reflexivity |].
  destruct (ok resp); [| reflexivity].
  destruct (json resp); reflexivity.
Qed.

(** X1.  Rendering [ProductsPage] never rejects, whatever the network
    does: it puts exactly one request on the wire, the GET for limit 20
    at offset 0, and resolves to the page tree.  It writes to the console
    exactly when the fetch failed, and then one line. *)
Theorem ProductsPage_always_renders (w : World) :
  exists tree,
    fst (ProductsPage w) = Fulfilled tree
    /\ heading tree = "Products"
    /\ requests (snd (ProductsPage w)) = (requests w ++ [productsRequest 20 0])%list
    /\ network (snd (ProductsPage w)) = network w
    /\ ((exists p, fst (fetchProducts productService 20 0 w) = Fulfilled p
                   /\ console (snd (ProductsPage w)) = console w)
        \/ (exists e, fst (fetchProducts productService 20 0 w) = Rejected e
                      /\ console (snd (ProductsPage w))
                         = (console w ++ [("Failed to fetch initial products:", e)])%list)).
Proof.
  unfold ProductsPage, bind, ret.
  rewrite getInitialProducts_run; simpl fetchProducts.
  destruct (fst (ProductService_fetchProducts 20 0 w)) as [p | e] eqn:E;
    eexists; (split; [reflexivity |]); repeat split; eauto.
Qed.

(** X2.  When the server-side fetch succeeds, the page it got is handed
    to the client component as it is and nothing is logged; a client
    that mounts while that seed is fresh issues no request, has a next
    page exactly when [skip + limit < total] of that page, and shows its
    products at once in the grid, without spinner, with the end line
    exactly when there is no next page and the page is not empty. *)
Theorem server_page_seeds_the_client (w : World) (p : ProductsResponse) :
  fst (fetchProducts productService 20 0 w) = Fulfilled p ->
  exists tree,
    fst (ProductsPage w) = Fulfilled tree
    /\ Components.initialData (productList tree) = Some p
    /\ console (snd (ProductsPage w)) = console w
    /\ forall (staleTime elapsed : Z) (client : World),
         elapsed < staleTime ->
         let s := mount (productList tree) staleTime elapsed client in
         snd s = client
         /\ InfiniteQuery.hasNextPage (clientOptions (productList tree))
              (InfiniteQuery.data (fst s))
            = (skip p + limit p <? total p)
         /\ exists g,
              ProductListClient (productList tree) (fst s) = Grid g
              /\ cards g = products p
              /\ spinner g = false
              /\ noMoreLine g
                 = (negb (skip p + limit p <? total p)
                    && (0 <? Z.of_nat (List.length (products p)))).
Proof.
  intros Hok.
  unfold ProductsPage, bind, ret.
  rewrite getInitialProducts_run.
  simpl fetchProducts in Hok; rewrite Hok.
  eexists; split; [reflexivity |].
  split; [reflexivity |].
  split; [reflexivity |].
  intros staleTime elapsed client Hfresh.
  cbn [productList coalesce_undefined].
  assert (Hs : mount {| Components.initialData := Some p |} staleTime elapsed client
               = (InfiniteQuery.initialState
                    (clientOptions {| Components.initialData := Some p |}), client)).
  { unfold mount, InfiniteQuery.onMount, InfiniteQuery.isStale; simpl.
    destruct (Z.leb_spec staleTime elapsed); [lia | reflexivity]. }
  assert (Hmore : InfiniteQuery.hasNextPage
                    (clientOptions {| Components.initialData := Some p |})
                    (Some {| InfiniteQuery.pages := [p];
                             InfiniteQuery.pageParams := [0] |})
                  = (skip p + limit p <? total p)).
  { unfold InfiniteQuery.hasNextPage, InfiniteQuery.nextPageParam; simpl.
    unfold getNextPageParam.
    now destruct (skip p + limit p <? total p). }
  rewrite Hs; cbn [fst snd]. split; [reflexivity |].
  split; [exact Hmore |].
  eexists; split; [reflexivity |].
  cbn [cards spinner noMoreLine ProductGrid initialProducts isLoading hasMore].
  unfold allProducts; simpl InfiniteQuery.data; cbn iota.
  cbn [flat_map InfiniteQuery.pages]; rewrite app_nil_r.
  repeat split.
  now rewrite Hmore.
Qed.

Lemma server_page_seeds_the_client_witness :
  exists tree,
    fst (ProductsPage catalog100) = Fulfilled tree
    /\ Components.initialData (productList tree) = Some (page 20 100 0 20)
    /\ requests (snd (mount (productList tree) 300000 0 catalog100)) = [].
Proof.
  destruct (server_page_seeds_the_client catalog100 (page 20 100 0 20) eq_refl)
    as [tree [Htree [Hseed [_ Hclient]]]].
  exists tree; split; [exact Htree |]; split; [exact Hseed |].
  destruct (Hclient 300000 0 catalog100) as [Hworld _]; [lia |].
  now rewrite Hworld.
Defined.

(** ** Requests of the controller *)

Section Wire.

Variable opts : UseProductsOptions.
Local Abbreviation o := (useProducts productService opts).
Local Abbreviation size := (coalesce (pageSize opts) 20).

Lemma fetchPage_world d param w :
  snd (InfiniteQuery.fetchPage o d param w) = sent (productsRequest size param) w.
Proof.
  unfold InfiniteQuery.fetchPage, bind, ret.
  pose proof (queryFn_world opts param w) as H.
  destruct (InfiniteQuery.queryFn o (Some param) w) as [[page | e] w'];
    exact H.
Qed.

Lemma fetchRest_requests n d w :
  exists cs,
    requests (snd (InfiniteQuery.fetchRest o n d w))
    = (requests w ++ map (productsRequest size) cs)%list.
Proof.
  revert d w; induction n as [| n IH]; intros d w; simpl.
  - exists []; simpl; now rewrite app_nil_r.
  - destruct (InfiniteQuery.nextPageParam o d) as [param |].
    + unfold bind.
      pose proof (fetchPage_world d param w) as Hw.
      destruct (InfiniteQuery.fetchPage o d param w) as [[r | e] w'];
        simpl in Hw; subst w'.
      * destruct (IH r (sent (productsRequest size param) w)) as [cs Hcs].
        exists (param :: cs); rewrite Hcs; simpl.
        now rewrite <- app_assoc.
      * exists [param]; reflexivity.
    + exists []; simpl; now rewrite app_nil_r.
Qed.

(** Whatever fetch the controller starts, the requests it adds are GETs
    of the products endpoint with the page size as limit; the data is
    not touched before the fetch settles. *)
Lemma fetch_query_requests more (q : Query) w :
  InfiniteQuery.data (fst (InfiniteQuery.fetch_query o more q w)) = InfiniteQuery.data q
  /\ exists cs,
       requests (snd (InfiniteQuery.fetch_query o more q w))
       = (requests w ++ map (productsRequest size) cs)%list.
Proof.
  unfold InfiniteQuery.fetch_query.
  set (old := coalesce (InfiniteQuery.data q) InfiniteQuery.no_data).
  assert (Hall : exists cs,
             requests (snd (InfiniteQuery.fetchAll o old w))
             = (requests w ++ map (productsRequest size) cs)%list).
  { unfold InfiniteQuery.fetchAll, bind.
    set (first := hd (InfiniteQuery.initialPageParam o) (InfiniteQuery.pageParams old)).
    pose proof (fetchPage_world InfiniteQuery.no_data first w) as Hw.
    destruct (InfiniteQuery.fetchPage o InfiniteQuery.no_data first w)
      as [[r | e] w']; simpl in Hw; subst w'.
    - destruct (fetchRest_requests
                  (Nat.pred (List.length (InfiniteQuery.pages old))) r
                  (sent (productsRequest size first) w)) as [cs Hcs].
      exists (first :: cs); rewrite Hcs; simpl; now rewrite <- app_assoc.
    - exists [first]; reflexivity. }
  assert (Hnext : exists cs,
             requests (snd (InfiniteQuery.fetchNext o old w))
             = (requests w ++ map (productsRequest size) cs)%list).
  { unfold InfiniteQuery.fetchNext.
    destruct (InfiniteQuery.nextPageParam o old) as [param |].
    - exists [param]; now rewrite fetchPage_world.
    - exists []; simpl; now rewrite app_nil_r. }
  destruct more, (InfiniteQuery.pages old) as [| p ps];
    match goal with
    | |- context [let (_, _) := ?job w in _] =>
        destruct (job w) as [settled w']; simpl in *; split; auto
    end.
Qed.

(** [fetchNextPage] adds the request at the cursor, or none. *)
Lemma fetchNextPage_requests (q : Query) w :
  requests (snd (InfiniteQuery.fetchNextPage o q w))
  = (requests w
       ++ match InfiniteQuery.cursor o (InfiniteQuery.data q) with
          | Some (_, param) => [productsRequest size param]
          | None => []
          end)%list.
Proof.
  rewrite (fetchNextPage_run o q w).
  destruct (InfiniteQuery.cursor o (InfiniteQuery.data q)) as [[base param] |].
  - cbn [snd]; now rewrite queryFn_world.
  - simpl; now rewrite app_nil_r.
Qed.

(** X3.  With [p] the last page held and [p.skip + p.limit < p.total],
    [fetchNextPage] puts exactly one request on the wire: limit is the
    page size of the hook ([pageSize], 20 when absent) and skip is
    [p.skip + p.limit], as the server reported them.  The fetch is marked
    as a next-page fetch, and when it settles fulfilled the page and that
    offset are added after what was held. *)
Theorem fetchNextPage_requests_reported_offset (q : Query)
    (d : InfiniteQuery.InfiniteData ProductsResponse Z) ps p (w : World) :
  InfiniteQuery.data q = Some d ->
  InfiniteQuery.pages d = (ps ++ [p])%list ->
  skip p + limit p < total p ->
  let q1 := fst (InfiniteQuery.fetchNextPage o q w) in
  let w1 := snd (InfiniteQuery.fetchNextPage o q w) in
  requests w1 = (requests w ++ [productsRequest size (skip p + limit p)])%list
  /\ InfiniteQuery.isFetchingNextPage q1 = true
  /\ InfiniteQuery.data q1 = Some d
  /\ forall page,
       fst (ProductService_fetchProducts size (skip p + limit p) w) = Fulfilled page ->
       InfiniteQuery.data (InfiniteQuery.settle q1)
       = Some {| InfiniteQuery.pages := (InfiniteQuery.pages d ++ [page])%list;
                 InfiniteQuery.pageParams :=
                   (InfiniteQuery.pageParams d ++ [skip p + limit p])%list |}.
Proof.
  intros Hd Hp Hlt q1 w1.
  assert (Hc : InfiniteQuery.cursor o (Some d) = Some (d, skip p + limit p)).
  { rewrite (cursor_last o d ps p Hp); simpl.
    destruct (getNextPageParam_spec p) as [[-> _] | [_ H]]; [reflexivity | lia]. }
  subst q1 w1.
  rewrite fetchNextPage_requests, (fetchNextPage_run o q w), Hd, Hc.
  repeat split.
  intros page Hpage; simpl.
  unfold InfiniteQuery.settle; simpl; rewrite Hpage; reflexivity.
Qed.

End Wire.

Lemma fetchNextPage_requests_reported_offset_witness :
  let o := useProducts productService
             {| pageSize := Some 20; UseProducts.initialData := Some (page 20 50 20 20) |} in
  requests (snd (InfiniteQuery.fetchNextPage o (InfiniteQuery.initialState o) catalog50))
  = [productsRequest 20 40].
Proof.
  intros o.
  destruct (fetchNextPage_requests_reported_offset
              {| pageSize := Some 20; UseProducts.initialData := Some (page 20 50 20 20) |}
              (InfiniteQuery.initialState o)
              {| InfiniteQuery.pages := [page 20 50 20 20];
                 InfiniteQuery.pageParams := [0] |}
              [] (page 20 50 20 20) catalog50 eq_refl eq_refl)
    as [Hreq _]; [simpl; lia | exact Hreq].
Defined.

(** ** Runs of the mounted list *)

Section Mounted.

Variable props : ProductListClientProps.
Local Abbreviation o := (clientOptions props).

(** One event adds at most one request, a GET of a page of 20, and an
    event that does add one starts a next-page fetch on unchanged data. *)
Lemma step_effect (q : Query) (w : World) (ev : Event) :
  (step props (q, w) ev = (InfiniteQuery.settle q, w) /\ ev = Settle)
  \/ (step props (q, w) ev = (q, w) /\ ev <> Settle)
  \/ (step props (q, w) ev = InfiniteQuery.fetchNextPage o q w
      /\ ev <> Settle
      /\ shownError q = None
      /\ InfiniteQuery.isFetchingNextPage q = false
      /\ InfiniteQuery.hasNextPage o (InfiniteQuery.data q) = true).
Proof.
  destruct ev as [entries |].
  - destruct (step_intersect props q w entries) as [E | [_ [He [Hl [Hm Hc]]]]].
    + right; left; split; [exact E | discriminate].
    + right; right; repeat split; auto; discriminate.
  - left; split; reflexivity.
Qed.

Lemma fetchNextPage_client_requests (q : Query) (w : World) :
  exists cs,
    requests (snd (InfiniteQuery.fetchNextPage o q w))
    = (requests w ++ map (productsRequest 20) cs)%list
    /\ (List.length cs <= 1)%nat.
Proof.
  unfold clientOptions; rewrite fetchNextPage_requests; simpl coalesce.
  destruct (InfiniteQuery.cursor _ (InfiniteQuery.data q)) as [[base param] |].
  - exists [param]; split; [reflexivity | simpl; lia].
  - exists []; split; [reflexivity | simpl; lia].
Qed.

Lemma fetchNextPage_client_state (q : Query) (w : World) :
  InfiniteQuery.data (fst (InfiniteQuery.fetchNextPage o q w)) = InfiniteQuery.data q
  /\ InfiniteQuery.isFetchingNextPage (fst (InfiniteQuery.fetchNextPage o q w)) = true
  /\ promiseExtends (fst (InfiniteQuery.fetchNextPage o q w)).
Proof.
  rewrite (fetchNextPage_run o q w).
  destruct (InfiniteQuery.cursor o (InfiniteQuery.data q)) as [[base param] |] eqn:Hc;
    cbn [fst]; repeat split; unfold promiseExtends; simpl.
  - destruct (fst (ProductService_fetchProducts 20 param w)) as [page | e]; [| exact I].
    exists [page]; simpl. now rewrite (cursor_base _ _ _ _ Hc).
  - exists []; now rewrite app_nil_r.
Qed.

Lemma step_requests (q : Query) (w : World) (ev : Event) :
  exists cs,
    requests (snd (step props (q, w) ev))
    = (requests w ++ map (productsRequest 20) cs)%list
    /\ (List.length cs <= 1)%nat.
Proof.
  destruct (step_effect q w ev) as [[E _] | [[E _] | [E _]]]; rewrite E.
  - exists []; simpl; rewrite app_nil_r; split; [reflexivity | lia].
  - exists []; simpl; rewrite app_nil_r; split; [reflexivity | lia].
  - apply fetchNextPage_client_requests.
Qed.

Lemma run_cons (ev : Event) (evs : list Event) (s : Sys) :
  run props (ev :: evs) s = run props evs (step props s ev).
Proof. reflexivity. Qed.

Lemma run_requests (evs : list Event) (q : Query) (w : World) :
  exists cs,
    requests (snd (run props evs (q, w)))
    = (requests w ++ map (productsRequest 20) cs)%list.
Proof.
  revert q w; induction evs as [| ev evs IH]; intros q w.
  - exists []; simpl; now rewrite app_nil_r.
  - rewrite run_cons.
    destruct (step_requests q w ev) as [cs [Hcs _]].
    destruct (step props (q, w) ev) as [q' w']; simpl in Hcs.
    destruct (IH q' w') as [cs' Hcs'].
    exists (cs ++ cs')%list.
    now rewrite Hcs', Hcs, map_app, app_assoc.
Qed.

(** X4.  From mount on, whatever the observer reports and whenever
    fetches settle, the request log only grows, and every request the
    list adds is a GET of [/products] with limit 20 and the 60-second
    revalidation hint; only the offset varies. *)
Theorem mounted_list_only_requests_pages_of_20 (staleTime elapsed : Z)
    (w : World) (evs : list Event) :
  exists skips : list Z,
    requests (snd (run props evs (mount props staleTime elapsed w)))
    = (requests w
         ++ map (fun skip =>
                   {| method := GET;
                      url := "https://dummyjson.com/products?limit=20&skip="
                               ++ number_to_string skip;
                      revalidate := Some 60 |}) skips)%list.
Proof.
  assert (Hmount : exists cs,
             requests (snd (mount props staleTime elapsed w))
             = (requests w ++ map (productsRequest 20) cs)%list).
  { unfold mount, InfiniteQuery.onMount.
    destruct (InfiniteQuery.data (InfiniteQuery.initialState o));
      [destruct (InfiniteQuery.isStale staleTime elapsed) |];
      try apply (fetch_query_requests
                   {| pageSize := None;
                      UseProducts.initialData := Components.initialData props |}).
    exists []; simpl; now rewrite app_nil_r. }
  destruct Hmount as [cs Hcs].
  destruct (mount props staleTime elapsed w) as [q0 w0]; simpl in Hcs.
  destruct (run_requests evs q0 w0) as [cs' Hcs'].
  exists (cs ++ cs')%list.
  rewrite Hcs', Hcs, map_app, app_assoc; reflexivity.
Qed.

End Mounted.

(** ** The gate and the render it was read at *)

(** When the last render showed the grid of a list with a next page and
    no next-page load in flight, an intersecting report is a
    [fetchNextPage] on the system as it is now. *)
Lemma report_fires (props : ProductListClientProps) (m : Mounted)
    (entries : list IntersectionObserverEntry) :
  shownError (rendered m) = None ->
  hd false (map isIntersecting entries) = true ->
  InfiniteQuery.isFetchingNextPage (rendered m) = false ->
  InfiniteQuery.hasNextPage (clientOptions props) (InfiniteQuery.data (rendered m))
  = true ->
  happen props m (Report entries)
  = {| current := InfiniteQuery.fetchNextPage (clientOptions props)
                    (fst (current m)) (snd (current m));
       rendered := rendered m |}.
Proof.
  intros Herr Hint Hload Hmore.
  unfold happen, ProductListClient; rewrite Herr.
  assert (Hnotloading : InfiniteQuery.isLoading (rendered m) = false).
  { unfold InfiniteQuery.isLoading, InfiniteQuery.isPending.
    unfold InfiniteQuery.hasNextPage in Hmore.
    destruct (InfiniteQuery.data (rendered m)); [| discriminate].
    apply andb_false_r. }
  rewrite Hnotloading; cbn [andb sentinel ProductGrid].
  match goal with
  | |- context [handleIntersection ?gp entries (current m)] =>
      destruct (handleIntersection_guard gp entries (current m)) as [Hyes _];
      cbn [isLoading hasMore onLoadMore] in Hyes
  end.
  rewrite Hyes by (now rewrite Hint, Hload, Hmore).
  reflexivity.
Qed.

(** X5.  The gate against a next-page load in flight is read at render
    time.  Once the list has rendered with the load in flight, no report
    and no further render changes the state or issues a request until
    the load settles.  Reports that arrive before the list has rendered
    again are not held back: from a rendered list with a next page, [k]
    intersecting reports with no render in between issue [k] requests,
    all for the offset at the cursor. *)
Theorem gate_is_read_at_render_time (props : ProductListClientProps) (m : Mounted) :
  (InfiniteQuery.isFetchingNextPage (rendered m) = true ->
   InfiniteQuery.isFetchingNextPage (fst (current m)) = true ->
   forall hs, Forall (fun h => h <> Settled) hs ->
     current (happenings props hs m) = current m)
  /\ (shownError (rendered m) = None ->
      InfiniteQuery.isFetchingNextPage (rendered m) = false ->
      InfiniteQuery.hasNextPage (clientOptions props) (InfiniteQuery.data (rendered m))
      = true ->
      forall base c,
        InfiniteQuery.cursor (clientOptions props) (InfiniteQuery.data (fst (current m)))
        = Some (base, c) ->
        forall k,
          requests (snd (current
                      (happenings props
                         (repeat (Report [{| isIntersecting := true |}]) k) m)))
          = (requests (snd (current m)) ++ repeat (productsRequest 20 c) k)%list).
Proof.
  split.
  - intros Hseen Hnow hs Hhs; unfold happenings.
    revert m Hseen Hnow; induction Hhs as [| h hs Hh _ IH]; intros m Hseen Hnow;
      [reflexivity |].
    simpl fold_left.
    assert (Hstep : current (happen props m h) = current m
                    /\ InfiniteQuery.isFetchingNextPage (rendered (happen props m h))
                       = true).
    { destruct h as [| entries |]; [simpl; auto | | contradiction].
      destruct (report_effect props m entries) as [Hr [E | [_ [_ [H _]]]]];
        [rewrite Hr; auto | congruence]. }
    destruct Hstep as [Hc Hs].
    rewrite IH; [exact Hc | exact Hs | now rewrite Hc].
  - intros Herr Hload Hmore base c Hc k; unfold happenings.
    revert m Herr Hload Hmore Hc; induction k as [| k IH];
      intros m Herr Hload Hmore Hc.
    + simpl; now rewrite app_nil_r.
    + cbn [repeat fold_left].
      rewrite (report_fires props m [{| isIntersecting := true |}]
                 Herr eq_refl Hload Hmore).
      destruct (fetchNextPage_client_state props (fst (current m)) (snd (current m)))
        as [Hd _].
      rewrite IH; cbn [current rendered]; try assumption; [| now rewrite Hd].
      unfold clientOptions; rewrite fetchNextPage_requests.
      fold (clientOptions props); rewrite Hc; simpl coalesce.
      now rewrite <- app_assoc.
Qed.

Lemma gate_is_read_at_render_time_witness :
  let props := seeded (page 20 100 0 20) in
  let report := Report [{| isIntersecting := true |}] in
  let m := mounted props 300000 0 catalog100 in
  let busy := happenings props [report; Rerender] m in
  current (happenings props [report; Rerender; report; report] busy) = current busy
  /\ requests (snd (current (happenings props (repeat report 3) m)))
     = [productsRequest 20 20; productsRequest 20 20; productsRequest 20 20].
Proof.
  intros props report m busy.
  split.
  - destruct (gate_is_read_at_render_time props busy) as [H _].
    apply (H eq_refl eq_refl).
    repeat constructor; discriminate.
  - destruct (gate_is_read_at_render_time props m) as [_ H].
    exact (H eq_refl eq_refl eq_refl _ _ eq_refl 3%nat).
Defined.

(** X6.  Once a truthy error is recorded (every error of the catalog
    client is one), no fetch is in flight and the list has rendered that
    state, the mounted list is stuck on the error view: the grid and its
    sentinel are not rendered, so no report, render or settle changes
    the state or issues a request; scrolling does not retry. *)
Theorem error_view_is_final (props : ProductListClientProps) (m : Mounted)
    (e : Exception) (hs : list Happening) :
  InfiniteQuery.error (fst (current m)) = Some e ->
  truthy e = true ->
  InfiniteQuery.pending (fst (current m)) = None ->
  rendered m = fst (current m) ->
  happenings props hs m = m
  /\ exists reason,
       ProductListClient props (rendered (happenings props hs m))
       = ErrorView "Failed to load products" reason.
Proof.
  intros Herr Htruthy Hidle Hseen.
  assert (Hshown : shownError (rendered m) = Some e)
    by (unfold shownError; now rewrite Hseen, Herr, Htruthy).
  assert (Hrun : happenings props hs m = m).
  { unfold happenings; induction hs as [| h hs IH]; [reflexivity |].
    simpl fold_left.
    assert (Hstep : happen props m h = m).
    { destruct h as [| entries |].
      - simpl; rewrite <- Hseen; now destruct m.
      - unfold happen, ProductListClient; now rewrite Hshown.
      - simpl; rewrite (settle_idle _ Hidle).
        destruct m as [[q w] r]; reflexivity. }
    now rewrite Hstep. }
  split; [exact Hrun |].
  rewrite Hrun; unfold ProductListClient; rewrite Hshown.
  eexists; reflexivity.
Qed.

Lemma error_view_is_final_witness :
  let failed := happenings noSeed [Settled; Rerender] (mounted noSeed 0 0 notFound) in
  happenings noSeed [Report [{| isIntersecting := true |}]; Settled; Rerender;
                     Report [{| isIntersecting := true |}]] failed = failed
  /\ requests (snd (current failed)) = [productsRequest 20 0].
Proof.
  intros failed.
  destruct (error_view_is_final noSeed failed
              (Error "Failed to fetch products: Not Found")
              [Report [{| isIntersecting := true |}]; Settled; Rerender;
               Report [{| isIntersecting := true |}]] eq_refl eq_refl eq_refl eq_refl)
    as [Hrun _].
  split; [exact Hrun | reflexivity].
Defined.

Section Invariants.

Variable props : ProductListClientProps.
Local Abbreviation o := (clientOptions props).

(** One event keeps the pages held and adds after them; what is in
    flight afterwards will do the same. *)
Lemma step_extends (q : Query) (w : World) (ev : Event) :
  promiseExtends q ->
  promiseExtends (fst (step props (q, w) ev))
  /\ exists more,
       InfiniteQuery.pages
         (coalesce (InfiniteQuery.data (fst (step props (q, w) ev))) InfiniteQuery.no_data)
       = (InfiniteQuery.pages (coalesce (InfiniteQuery.data q) InfiniteQuery.no_data)
            ++ more)%list.
Proof.
  intros Hq.
  destruct (step_effect props q w ev) as [[E _] | [[E _] | [E _]]]; rewrite E; cbn [fst].
  - unfold promiseExtends, InfiniteQuery.settle in *.
    destruct (InfiniteQuery.pending q) as [p |] eqn:Hp.
    + destruct (InfiniteQuery.promise p) as [d | e]; simpl.
      * split; [exact I | exact Hq].
      * split; [exact I | exists []; now rewrite app_nil_r].
    + rewrite Hp; split; [exact I | exists []; now rewrite app_nil_r].
  - split; [exact Hq | exists []; now rewrite app_nil_r].
  - destruct (fetchNextPage_client_state props q w) as [Hd [_ Hext]].
    split; [exact Hext |].
    rewrite Hd; exists []; now rewrite app_nil_r.
Qed.

Lemma run_extends (evs : list Event) (q : Query) (w : World) :
  promiseExtends q ->
  exists more,
    InfiniteQuery.pages
      (coalesce (InfiniteQuery.data (fst (run props evs (q, w)))) InfiniteQuery.no_data)
    = (InfiniteQuery.pages (coalesce (InfiniteQuery.data q) InfiniteQuery.no_data)
         ++ more)%list.
Proof.
  revert q w; induction evs as [| ev evs IH]; intros q w Hq.
  - exists []; simpl; now rewrite app_nil_r.
  - rewrite run_cons.
    destruct (step_extends q w ev Hq) as [Hq' [more Hmore]].
    destruct (step props (q, w) ev) as [q' w']; cbn [fst] in *.
    destruct (IH q' w' Hq') as [more' Hmore'].
    exists (more ++ more')%list.
    now rewrite Hmore', Hmore, app_assoc.
Qed.

(** X7.  Scrolling never drops or reorders what is loaded: from a state
    with no fetch in flight, after any run of observer reports and
    settles the pages held before are still there, in place, with any new
    pages after them, and the flattened product list starts with the
    products shown before. *)
Theorem loaded_products_are_kept (evs : list Event) (q : Query) (w : World) :
  InfiniteQuery.pending q = None ->
  (exists newPages,
     InfiniteQuery.pages
       (coalesce (InfiniteQuery.data (fst (run props evs (q, w)))) InfiniteQuery.no_data)
     = (InfiniteQuery.pages (coalesce (InfiniteQuery.data q) InfiniteQuery.no_data)
          ++ newPages)%list)
  /\ (exists newProducts,
        allProducts (fst (run props evs (q, w)))
        = (allProducts q ++ newProducts)%list).
Proof.
  intros Hidle.
  assert (Hq : promiseExtends q) by (unfold promiseExtends; now rewrite Hidle).
  destruct (run_extends evs q w Hq) as [more Hmore].
  split; [now exists more |].
  exists (flat_map products more).
  now rewrite !allProducts_pages, Hmore, flat_map_app.
Qed.

(** While a next-page fetch is in flight there is a next page. *)
Lemma step_spinner (q : Query) (w : World) (ev : Event) :
  (InfiniteQuery.isFetchingNextPage q = true ->
   InfiniteQuery.hasNextPage o (InfiniteQuery.data q) = true) ->
  InfiniteQuery.isFetchingNextPage (fst (step props (q, w) ev)) = true ->
  InfiniteQuery.hasNextPage o (InfiniteQuery.data (fst (step props (q, w) ev))) = true.
Proof.
  intros Hq.
  destruct (step_effect props q w ev) as [[E _] | [[E _] | [E [_ [_ [_ Hmore]]]]]];
    rewrite E; cbn [fst].
  - unfold InfiniteQuery.settle, InfiniteQuery.isFetchingNextPage in *.
    destruct (InfiniteQuery.pending q) as [p |] eqn:Hp.
    + destruct (InfiniteQuery.promise p); simpl; discriminate.
    + rewrite Hp; discriminate.
  - exact Hq.
  - destruct (fetchNextPage_client_state props q w) as [Hd _].
    intros _; now rewrite Hd.
Qed.

Lemma run_spinner (evs : list Event) (q : Query) (w : World) :
  (InfiniteQuery.isFetchingNextPage q = true ->
   InfiniteQuery.hasNextPage o (InfiniteQuery.data q) = true) ->
  InfiniteQuery.isFetchingNextPage (fst (run props evs (q, w))) = true ->
  InfiniteQuery.hasNextPage o (InfiniteQuery.data (fst (run props evs (q, w)))) = true.
Proof.
  revert q w; induction evs as [| ev evs IH]; intros q w Hq; [exact Hq |].
  rewrite run_cons.
  pose proof (step_spinner q w ev Hq) as Hq'.
  destruct (step props (q, w) ev) as [q' w']; cbn [fst] in Hq'.
  now apply IH.
Qed.

Lemma mount_not_fetching_next (staleTime elapsed : Z) (w : World) :
  InfiniteQuery.isFetchingNextPage (fst (mount props staleTime elapsed w)) = false.
Proof.
  unfold mount, InfiniteQuery.onMount.
  assert (H : forall q, InfiniteQuery.isFetchingNextPage
                          (fst (InfiniteQuery.fetch_query o false q w)) = false).
  { intros q; unfold InfiniteQuery.fetch_query.
    match goal with
    | |- context [let (_, _) := ?job w in _] => now destruct (job w)
    end. }
  destruct (InfiniteQuery.data (InfiniteQuery.initialState o)) eqn:Hd;
    [destruct (InfiniteQuery.isStale staleTime elapsed) |]; try apply H.
  reflexivity.
Qed.


End Invariants.

Lemma loaded_products_are_kept_witness :
  let s1 := run noSeed [Settle] (mount noSeed 0 0 catalog100) in
  exists newProducts,
    allProducts (fst (run noSeed [Intersect [{| isIntersecting := true |}]; Settle] s1))
    = (items 20 0 ++ newProducts)%list.
Proof.
  intros s1.
  destruct (loaded_products_are_kept noSeed
              [Intersect [{| isIntersecting := true |}]; Settle]
              (fst s1) (snd s1) eq_refl) as [_ H].
  exact H.
Defined.

(** ** The request URL *)

(** X9.  The URL of [fetchProducts] determines its arguments: two calls
    build the same URL exactly when they agree on both [limit] and
    [skip], so distinct pages are never requested (or cached) under one
    URL. *)
Theorem products_url_determines_page (limit1 skip1 limit2 skip2 : Z) :
  products_url limit1 skip1 = products_url limit2 skip2
  <-> limit1 = limit2 /\ skip1 = skip2.
Proof.
  split; [| now intros [-> ->]].
  unfold products_url; intros E.
  apply append_inv_head in E.
  apply (append_inv_head "/products?limit=") in E.
  change ("&skip=" ++ number_to_string skip1)
    with (String "&" ("skip=" ++ number_to_string skip1)) in E.
  change ("&skip=" ++ number_to_string skip2)
    with (String "&" ("skip=" ++ number_to_string skip2)) in E.
  apply split_at_amp in E; try apply noAmp_number.
  destruct E as [El Es].
  apply (append_inv_head "skip=") in Es.
  split; now apply number_to_string_inj.
Qed.

Lemma products_url_determines_page_witness :
  products_url 20 0 <> products_url 20 20
  /\ products_url 2 0 <> products_url 20 0.
Proof.
  split; intros E.
  - destruct (proj1 (products_url_determines_page 20 0 20 20) E) as [_ H].
    discriminate H.
  - destruct (proj1 (products_url_determines_page 2 0 20 0) E) as [H _].
    discriminate H.
Defined.

(** ** A seed that is stale at mount *)

(** X10.  A seeded page that is already stale when the list mounts is
    refetched with exactly one request, for limit 20 at offset 0 whatever
    offset the seed reports; meanwhile the seed stays on screen without
    the next-page spinner.  When the refetch settles fulfilled its page
    replaces the seed; when it settles rejected the seed is kept and the
    error is recorded. *)
Theorem stale_seed_is_refetched_from_0 (p : ProductsResponse)
    (staleTime elapsed : Z) (w : World) :
  let props := {| Components.initialData := Some p |} in
  let s := mount props staleTime elapsed w in
  staleTime <= elapsed ->
  requests (snd s) = (requests w ++ [productsRequest 20 0])%list
  /\ (exists g, ProductListClient props (fst s) = Grid g
                /\ cards g = products p /\ spinner g = false)
  /\ match fst (ProductService_fetchProducts 20 0 w) with
     | Fulfilled p' =>
         InfiniteQuery.data (InfiniteQuery.settle (fst s))
         = Some {| InfiniteQuery.pages := [p']; InfiniteQuery.pageParams := [0] |}
         /\ InfiniteQuery.error (InfiniteQuery.settle (fst s)) = None
     | Rejected e =>
         InfiniteQuery.data (InfiniteQuery.settle (fst s))
         = Some {| InfiniteQuery.pages := [p]; InfiniteQuery.pageParams := [0] |}
         /\ InfiniteQuery.error (InfiniteQuery.settle (fst s)) = Some e
     end.
Proof.
  intros props s Hstale.
  assert (Hs : s = InfiniteQuery.fetch_query (clientOptions props) false
                     (InfiniteQuery.initialState (clientOptions props)) w).
  { subst s; unfold mount, InfiniteQuery.onMount, InfiniteQuery.isStale; simpl.
    destruct (Z.leb_spec staleTime elapsed); [reflexivity | lia]. }
  rewrite Hs; unfold InfiniteQuery.fetch_query; simpl.
  unfold InfiniteQuery.fetchAll, InfiniteQuery.fetchPage, bind, ret; simpl.
  rewrite fetchProducts_run; cbn [fst snd].
  destruct (network w (requests w) (productsRequest 20 0)) as [reason | resp]; simpl.
  - split; [reflexivity |]. split; [| split; reflexivity].
    eexists; split; [reflexivity |]. split; [apply app_nil_r | reflexivity].
  - destruct (ok resp); simpl.
    + destruct (json resp) as [reason | p']; simpl.
      * split; [reflexivity |]. split; [| split; reflexivity].
        eexists; split; [reflexivity |]. split; [apply app_nil_r | reflexivity].
      * split; [reflexivity |]. split; [| split; reflexivity].
        eexists; split; [reflexivity |]. split; [apply app_nil_r | reflexivity].
    + split; [reflexivity |]. split; [| split; reflexivity].
      eexists; split; [reflexivity |]. split; [apply app_nil_r | reflexivity].
Qed.

Lemma stale_seed_is_refetched_from_0_witness :
  let s := mount (seeded (page 20 50 20 20)) 0 5 catalog50 in
  requests (snd s) = [productsRequest 20 0]
  /\ InfiniteQuery.data (InfiniteQuery.settle (fst s))
     = Some {| InfiniteQuery.pages := [page 20 50 0 20];
               InfiniteQuery.pageParams := [0] |}.
Proof.
  intros s.
  destruct (stale_seed_is_refetched_from_0 (page 20 50 20 20) 0 5 catalog50)
    as [Hreq [_ Hsettle]]; [lia |].
  split; [exact Hreq | exact (proj1 Hsettle)].
Defined.

(** ** Walking a catalog to its end *)

Lemma offsets_S (size : Z) (n : nat) :
  offsets size (S n) = (offsets size n ++ [size * Z.of_nat n])%list.
Proof. unfold offsets; now rewrite seq_S, map_app. Qed.

Lemma offsets_In (size : Z) (k n : nat) :
  (k < n)%nat -> In (size * Z.of_nat k) (offsets size n).
Proof.
  intros H; unfold offsets.
  apply (in_map (fun i => size * Z.of_nat i)), in_seq; lia.
Qed.

(** A [loadNext] whose request at the cursor is answered with a page. *)
Lemma loadNext_answered (opts : UseProductsOptions) (q : Query) (w : World)
    base param resp page :
  InfiniteQuery.cursor (useProducts productService opts) (InfiniteQuery.data q)
  = Some (base, param) ->
  network w (requests w) (productsRequest (coalesce (pageSize opts) 20) param)
  = Responds resp ->
  ok resp = true ->
  json resp = inr page ->
  InfiniteQuery.loadNext (useProducts productService opts) (q, w)
  = ({| InfiniteQuery.data := Some (InfiniteQuery.addToEnd base page param);
        InfiniteQuery.error := None;
        InfiniteQuery.pending := None |},
     sent (productsRequest (coalesce (pageSize opts) 20) param) w).
Proof.
  intros Hc Hnet Hok Hjson.
  rewrite (loadNext_run (useProducts productService opts) q w), Hc.
  rewrite queryFn_world; simpl InfiniteQuery.queryFn.
  rewrite fetchProducts_run; cbn [fst].
  now rewrite Hnet, Hok, Hjson.
Qed.

Section Walk.

Variable total_ : Z.
Variable pageAt : Z -> ProductsResponse.
Variable n : nat.
Variable w : World.

Hypothesis pages_needed : (1 <= n)%nat.
Hypothesis last_reaches_end : total_ <= 20 * Z.of_nat n.
Hypothesis earlier_do_not : forall k, (1 <= k < n)%nat -> 20 * Z.of_nat k < total_.

Hypothesis server_answers :
  forall seen c, In c (offsets 20 n) ->
    exists resp,
      network w seen (productsRequest 20 c) = Responds resp
      /\ ok resp = true /\ json resp = inr (pageAt c).

Hypothesis pages_report :
  forall c, In c (offsets 20 n) ->
    skip (pageAt c) = c /\ total (pageAt c) = total_
    /\ (limit (pageAt c) = 20 \/ limit (pageAt c) = Z.min 20 (total_ - c)).

Local Abbreviation o := (clientOptions noSeed).
Local Abbreviation after k := (Nat.iter k (InfiniteQuery.loadNext o)
                                 (InfiniteQuery.initialState o, w)).

Lemma walk_next (k : nat) :
  (k < n)%nat ->
  getNextPageParam (pageAt (20 * Z.of_nat k))
  = if (S k <? n)%nat then Some (20 * Z.of_nat (S k)) else None.
Proof.
  intros Hk.
  destruct (pages_report _ (offsets_In 20 k n Hk)) as [Hs [Ht Hl]].
  unfold getNextPageParam; rewrite Hs, Ht.
  destruct (Nat.ltb_spec (S k) n) as [Hmore | Hlast].
  - assert (20 * Z.of_nat (S k) < total_) by (apply earlier_do_not; lia).
    assert (Hlim : limit (pageAt (20 * Z.of_nat k)) = 20) by lia.
    rewrite Hlim.
    replace (20 * Z.of_nat k + 20) with (20 * Z.of_nat (S k)) by lia.
    destruct (Z.ltb_spec (20 * Z.of_nat (S k)) total_); [reflexivity | lia].
  - assert (n = S k) by lia; subst n.
    destruct (Z.ltb_spec (20 * Z.of_nat k + limit (pageAt (20 * Z.of_nat k))) total_);
      [lia | reflexivity].
Qed.

(** The state after [k] loads, for [k] up to the number of pages. *)
Lemma walk_state (k : nat) :
  (k <= n)%nat ->
  snd (after k)
  = {| network := network w;
       requests := (requests w ++ map (productsRequest 20) (offsets 20 k))%list;
       console := console w |}
  /\ fst (after k)
     = match k with
       | O => InfiniteQuery.initialState o
       | S _ =>
           {| InfiniteQuery.data :=
                Some {| InfiniteQuery.pages := map pageAt (offsets 20 k);
                        InfiniteQuery.pageParams := offsets 20 k |};
              InfiniteQuery.error := None;
              InfiniteQuery.pending := None |}
       end.
Proof.
  induction k as [| k IH]; intros Hk.
  - simpl; rewrite app_nil_r; split; [now destruct w | reflexivity].
  - destruct IH as [Hw Hq]; [lia |].
    simpl Nat.iter.
    destruct (after k) as [qk wk]; cbn [fst snd] in Hw, Hq.
    destruct (server_answers (requests wk) (20 * Z.of_nat k)) as [resp [Hnet [Hok Hjson]]];
      [apply offsets_In; lia |].
    assert (Hnet' : network wk (requests wk) (productsRequest 20 (20 * Z.of_nat k))
                    = Responds resp) by (rewrite Hw at 1; exact Hnet).
    assert (Hsent : sent (productsRequest 20 (20 * Z.of_nat k)) wk
                    = {| network := network w;
                         requests := (requests w
                                      ++ map (productsRequest 20) (offsets 20 (S k)))%list;
                         console := console w |}).
    { rewrite offsets_S, map_app, app_assoc, Hw; reflexivity. }
    destruct k as [| k].
    + assert (Hload : InfiniteQuery.loadNext o (qk, wk)
                      = ({| InfiniteQuery.data :=
                              Some (InfiniteQuery.addToEnd InfiniteQuery.no_data
                                      (pageAt (20 * Z.of_nat 0)) 0);
                            InfiniteQuery.error := None;
                            InfiniteQuery.pending := None |},
                         sent (productsRequest 20 0) wk)).
      { apply (loadNext_answered
                 {| pageSize := None; UseProducts.initialData := None |}
                 qk wk InfiniteQuery.no_data 0 resp (pageAt (20 * Z.of_nat 0)));
          try assumption.
        now rewrite Hq. }
      rewrite Hload; split; [exact Hsent | reflexivity].
    + assert (Hc : InfiniteQuery.cursor o (InfiniteQuery.data qk)
                   = Some ({| InfiniteQuery.pages := map pageAt (offsets 20 (S k));
                              InfiniteQuery.pageParams := offsets 20 (S k) |},
                           20 * Z.of_nat (S k))).
      { rewrite Hq; cbn [InfiniteQuery.data].
        rewrite (cursor_last o _ (map pageAt (offsets 20 k)) (pageAt (20 * Z.of_nat k)))
          by (cbn [InfiniteQuery.pages]; now rewrite offsets_S, map_app).
        cbn [InfiniteQuery.getNextPageParam useProducts clientOptions].
        rewrite (walk_next k) by lia.
        destruct (Nat.ltb_spec (S k) n); [reflexivity | lia]. }
      assert (Hload : InfiniteQuery.loadNext o (qk, wk)
                      = ({| InfiniteQuery.data :=
                              Some (InfiniteQuery.addToEnd
                                      {| InfiniteQuery.pages := map pageAt (offsets 20 (S k));
                                         InfiniteQuery.pageParams := offsets 20 (S k) |}
                                      (pageAt (20 * Z.of_nat (S k)))
                                      (20 * Z.of_nat (S k)));
                            InfiniteQuery.error := None;
                            InfiniteQuery.pending := None |},
                         sent (productsRequest 20 (20 * Z.of_nat (S k))) wk))
        by (apply (loadNext_answered
                     {| pageSize := None; UseProducts.initialData := None |}
                     qk wk _ _ resp _ Hc Hnet' Hok Hjson)).
      rewrite Hload; split; [exact Hsent |].
      unfold InfiniteQuery.addToEnd; cbn [InfiniteQuery.pages InfiniteQuery.pageParams].
      now rewrite (offsets_S 20 (S k)), map_app.
Qed.

(** X11.  Scrolling through a catalog takes one request per page and
    then stops.  Let the server answer the offsets 0, 20, 40, ... of the
    [n] pages of a catalog of [total] items, each page reporting its
    offset, the total, and as limit either 20 or the number of items left
    ([n] being the number of pages of 20 needed).  Then, starting with
    nothing cached, the first [k <= n] loads have put exactly the requests
    for offsets 0, 20, ..., 20(k-1) on the wire, in this order, and the
    list shows the products of these pages in this order; there is a next
    page after [k] loads exactly when [k < n]; and after the [n]-th load
    no further [loadNext] issues a request or changes the list. *)
Theorem catalog_walk_takes_one_request_per_page :
  (forall k, (k <= n)%nat ->
     requests (snd (after k))
     = (requests w ++ map (productsRequest 20) (offsets 20 k))%list
     /\ allProducts (fst (after k))
        = flat_map (fun c => products (pageAt c)) (offsets 20 k)
     /\ ((1 <= k)%nat ->
         InfiniteQuery.hasNextPage o (InfiniteQuery.data (fst (after k)))
         = (k <? n)%nat))
  /\ (forall m,
        requests (snd (after (m + n)))
        = (requests w ++ map (productsRequest 20) (offsets 20 n))%list
        /\ allProducts (fst (after (m + n)))
           = flat_map (fun c => products (pageAt c)) (offsets 20 n)).
Proof.
  assert (Hk : forall k, (k <= n)%nat ->
     requests (snd (after k))
     = (requests w ++ map (productsRequest 20) (offsets 20 k))%list
     /\ allProducts (fst (after k))
        = flat_map (fun c => products (pageAt c)) (offsets 20 k)
     /\ ((1 <= k)%nat ->
         InfiniteQuery.hasNextPage o (InfiniteQuery.data (fst (after k)))
         = (k <? n)%nat)).
  { intros k Hle.
    destruct (walk_state k Hle) as [Hw Hq].
    split; [now rewrite Hw |].
    rewrite Hq.
    destruct k as [| k]; [split; [reflexivity | lia] |].
    split.
    - unfold allProducts; cbn [InfiniteQuery.data InfiniteQuery.pages].
      now rewrite flat_map_concat_map, map_map, <- flat_map_concat_map.
    - intros _; cbn [InfiniteQuery.data].
      unfold InfiniteQuery.hasNextPage.
      rewrite (nextPageParam_last o _ (map pageAt (offsets 20 k))
                 (pageAt (20 * Z.of_nat k)))
        by (cbn [InfiniteQuery.pages]; now rewrite offsets_S, map_app).
      cbn [InfiniteQuery.getNextPageParam useProducts clientOptions].
      rewrite (walk_next k) by lia.
      now destruct (S k <? n)%nat. }
  split; [exact Hk |].
  intros m.
  destruct (walk_state n (le_n n)) as [Hw Hq].
  destruct (Hk n (le_n n)) as [Hreq [Hall _]].
  assert (Hn : exists n', n = S n') by (exists (Nat.pred n); lia).
  destruct Hn as [n' Hn].
  assert (Hlast : (n' < n)%nat) by lia.
  assert (Hend : total (pageAt (20 * Z.of_nat n'))
                 <= skip (pageAt (20 * Z.of_nat n')) + limit (pageAt (20 * Z.of_nat n'))).
  { pose proof (walk_next n' Hlast) as Hnext.
    rewrite <- Hn, Nat.ltb_irrefl in Hnext.
    destruct (getNextPageParam_spec (pageAt (20 * Z.of_nat n'))) as [[H _] | [_ H]];
      [congruence | exact H]. }
  assert (Hdata : InfiniteQuery.data (fst (after n))
                  = Some {| InfiniteQuery.pages := map pageAt (offsets 20 n);
                            InfiniteQuery.pageParams := offsets 20 n |}).
  { rewrite Hq. rewrite Hn at 1. reflexivity. }
  rewrite Nat.iter_add.
  destruct (after n) as [qn wn]; cbn [fst snd] in *.
  destruct (loadNext_exhausted_iter productService
              {| pageSize := None; UseProducts.initialData := None |}
              qn _ (map pageAt (offsets 20 n')) (pageAt (20 * Z.of_nat n')) m wn Hdata)
    as [Hw' Hd'].
  - cbn [InfiniteQuery.pages]; now rewrite Hn, offsets_S, map_app.
  - exact Hend.
  - change (useProducts productService
              {| pageSize := None; UseProducts.initialData := None |}) with o in Hw', Hd'.
    rewrite Hw'. split; [exact Hreq |].
    rewrite <- Hall. unfold allProducts. now rewrite Hd', Hdata.
Qed.

End Walk.

Lemma catalog_walk_takes_one_request_per_page_witness :
  let o := clientOptions noSeed in
  let s := Nat.iter 5 (InfiniteQuery.loadNext o) (InfiniteQuery.initialState o, catalog50) in
  requests (snd s) = [productsRequest 20 0; productsRequest 20 20; productsRequest 20 40]
  /\ allProducts (fst s) = items 50 0.
Proof.
  intros o s.
  assert (Hserver : forall seen c, In c (offsets 20 3) ->
            exists resp,
              network catalog50 seen (productsRequest 20 c) = Responds resp
              /\ ok resp = true
              /\ json resp
                 = inr (page (Z.to_nat (Z.min 20 (50 - c))) 50 c (Z.min 20 (50 - c)))).
  { intros seen c [<- | [<- | [<- | []]]]; eexists; repeat split. }
  assert (Hreport : forall c, In c (offsets 20 3) ->
            skip (page (Z.to_nat (Z.min 20 (50 - c))) 50 c (Z.min 20 (50 - c))) = c
            /\ total (page (Z.to_nat (Z.min 20 (50 - c))) 50 c (Z.min 20 (50 - c))) = 50
            /\ (limit (page (Z.to_nat (Z.min 20 (50 - c))) 50 c (Z.min 20 (50 - c))) = 20
                \/ limit (page (Z.to_nat (Z.min 20 (50 - c))) 50 c (Z.min 20 (50 - c)))
                   = Z.min 20 (50 - c))).
  { intros c _; simpl; auto. }
  destruct (catalog_walk_takes_one_request_per_page 50
              (fun c => page (Z.to_nat (Z.min 20 (50 - c))) 50 c (Z.min 20 (50 - c)))
              3 catalog50) as [_ Hstop].
  - lia.
  - lia.
  - intros k Hk; lia.
  - exact Hserver.
  - exact Hreport.
  - destruct (Hstop 2%nat) as [Hreq Hall].
    split; [exact Hreq | exact Hall].
Defined.

(** ** What the observer callback looks at *)

(** X12.  Only the first entry of an observer report counts.  A report
    whose first entry is not intersecting, or that has no entry at all,
    leaves the mounted list as it is and issues no request, whatever its
    later entries say and whatever state the list is in. *)
Theorem report_is_judged_by_its_first_entry (props : ProductListClientProps)
    (q : Query) (w : World) (entries : list IntersectionObserverEntry) :
  hd false (map isIntersecting entries) = false ->
  step props (q, w) (Intersect entries) = (q, w).
Proof.
  intros Hfirst.
  destruct (step_intersect props q w entries) as [E | [Hint _]];
    [exact E | congruence].
Qed.

Lemma report_is_judged_by_its_first_entry_witness :
  let s := run noSeed [Settle] (mount noSeed 0 0 catalog100) in
  step noSeed s (Intersect [{| isIntersecting := false |};
                            {| isIntersecting := true |}]) = s
  /\ step noSeed s (Intersect []) = s.
Proof.
  intros s.
  split.
  - exact (report_is_judged_by_its_first_entry noSeed (fst s) (snd s)
             [{| isIntersecting := false |}; {| isIntersecting := true |}] eq_refl).
  - exact (report_is_judged_by_its_first_entry noSeed (fst s) (snd s) [] eq_refl).
Defined.
